(** * async-tasks: the task store contract, the oldest-claim-wins protocol,
      the status-change-timeout processor and the task handlers

    A shallow embedding of the Go sources: [model/model.go],
    [behaviors/statuschangetimeout/statuschangetimeout.go], [updater.go]
    and [app.go].  The [database] package is not among the sources; its
    operations are modelled from the store contract of the design
    document. *)

From Stdlib Require Import ZArith Lia.
From stdpp Require Import base strings list gmap.

Set Warnings "-register-all".
Local Open Scope Z_scope.

(** ** Package [time] (Go standard library)

    An instant is the number of nanoseconds elapsed since Go's zero
    instant (January 1, year 1, 00:00:00 UTC); a [Duration] is a signed
    count of nanoseconds.  The instants and durations this program
    handles are far from the ends of Go's representable range, so [Add]
    is plain addition. *)
Module time.

Abbreviation Time := Z.
Abbreviation Duration := Z.

Definition Nanosecond : Duration := 1.
Definition Second : Duration := 1000000000.
Definition Minute : Duration := 60 * Second.

Definition IsZero (t : Time) : bool := t =? 0.
Definition Before (t u : Time) : bool := t <? u.
Definition After (t u : Time) : bool := u <? t.
Definition Add (t : Time) (d : Duration) : Time := t + d.

End time.

(** ** Package [model] *)
Module model.
Import time.

(** The dynamic values a decoded JSON document holds in a Go
      [interface{}].  Numbers are only ever handed to the decoder, which
      is a parameter of the development; their float64 payload is kept
      as an integer. *)
Inductive value : Type :=
  | VNull
  | VBool (b : bool)
  | VNumber (n : Z)
  | VString (s : string)
  | VArray (l : list value)
  | VObject (m : gmap string value).

Record AsyncTaskBehavior := mkBehavior {
    BehaviorType : string;
    Data : gmap string value;
  }.

Record AsyncTaskStatus := mkStatus {
    Status : string;
    Detail : string;
    CreatedDate : Time;
  }.

(** [Type] is a keyword; the field is [TaskType].  The pointers
      [StartDate] and [EndDate] are options, [None] being [nil]. *)
Record AsyncTask := mkTask {
    ID : string;
    TaskType : string;
    Username : string;
    TaskData : gmap string value;
    StartDate : option Time;
    EndDate : option Time;
    Behaviors : list AsyncTaskBehavior;
    BehaviorsLoaded : bool;
    Statuses : list AsyncTaskStatus;
    StatusesLoaded : bool;
  }.

(** The zero value [model.AsyncTask{}]. *)
Definition zeroTask : AsyncTask :=
    mkTask "" "" "" ∅ None None [] false [] false.

End model.


(** ** Effects

    The Go code threads three things through every call: the store (a
    shared, mutable database), the two clocks it reads, and the errors
    it returns.  A computation is a function of the [World]; it yields a
    value, a non-nil [error] or a run-time panic, and the next world.
    The process clock stands still while one function runs.  A formatted
    log message is logged as its format. *)
Module effects.
Import time model.

Inductive Res (A : Type) : Type :=
  | Ok (a : A)
  | Err (e : string)
  | Panic.
Arguments Ok {A} a.
Arguments Err {A} e.
Arguments Panic {A}.

Inductive Level : Set := LInfo | LError.

(** [rows] are the committed task rows in creation order, each holding
    its statuses and behaviors (which is what the cascading foreign keys
    amount to); [db_now] is the store's clock, from which it assigns
    [start_date], [created_date] and [end_date]; [now] is the value
    [time.Now()] returns in this process; [faults] decides, call by
    call, which of the store calls to come fail for reasons of the
    store's own (no entry: the call succeeds); [uuids] are the
    identifiers the store will hand out; [logged] is what was written
    to the log, oldest entry first. *)
Record World := mkWorld {
  rows : list AsyncTask;
  db_now : Time;
  now : Time;
  faults : list bool;
  uuids : list string;
  logged : list (Level * string);
}.

Definition M (A : Type) : Type := World -> Res A * World.

Definition ret {A} (a : A) : M A := fun w => (Ok a, w).

Definition fail {A} (e : string) : M A := fun w => (Err e, w).

Definition panic {A} : M A := fun w => (Panic, w).

Definition bind {A B} (c : M A) (k : A -> M B) : M B := fun w =>
  match c w with
  | (Ok a, w') => k a w'
  | (Err e, w') => (Err e, w')
  | (Panic, w') => (Panic, w')
  end.

(** [err := f(...)] followed by a test of [err]: the error becomes a
    value; a panic still unwinds. *)
Definition catch {A} (c : M A) : M (A + string) := fun w =>
  match c w with
  | (Ok a, w') => (Ok (inl a), w')
  | (Err e, w') => (Ok (inr e), w')
  | (Panic, w') => (Panic, w')
  end.

(** [defer f()]: [f] runs when the body returns, whatever it returns,
    and also when it panics; the body's result is the function's. *)
Definition defer {A} (body : M A) (f : M unit) : M A := fun w =>
  match body w with
  | (r, w') =>
      match f w' with
      | (Panic, w'') => (Panic, w'')
      | (_, w'') => (r, w'')
      end
  end.

Definition Now : M Time := fun w => (Ok (now w), w).

Definition logf (lvl : Level) (msg : string) : M unit := fun w =>
  (Ok tt, mkWorld (rows w) (db_now w) (now w) (faults w) (uuids w)
                  (logged w ++ [(lvl, msg)])).

(** [s == ""] *)
Definition blank (s : string) : bool := String.eqb s "".

(** [errors.Wrap(err, msg).Error()] *)
Definition Wrap (e msg : string) : string := msg +:+ ": " +:+ e.

(** A [context.Context]: the background context, or one made by
    [context.WithTimeout], which is done from its deadline on. *)
Inductive Context : Set :=
  | Background
  | WithTimeout (deadline : Time).

Definition done (ctx : Context) (w : World) : bool :=
  match ctx with
  | Background => false
  | WithTimeout d => d <=? now w
  end.

(** [select { case <-ctx.Done(): ...; default: }] *)
Definition Done (ctx : Context) : M bool := fun w => (Ok (done ctx w), w).

End effects.

Declare Scope go_scope.
Delimit Scope go_scope with go.
Notation "x <- c ;; k" := (effects.bind c (fun x => k))
  (at level 100, c at next level, right associativity) : go_scope.
Notation "c ;; k" := (effects.bind c (fun _ => k))
  (at level 100, right associativity) : go_scope.

Local Open Scope go_scope.

(** ** Package [database]

    The package is not among the sources.  Every definition of this
    module is modelled from the store contract of the design document
    (section 4.1) and from the calls the sources make. *)
Module database.
Import time model effects.

(** Modelled from the spec: [database.TaskFilter], with the fields the
    sources set; the field [Statuses] is [Statuses_] here, the name being
    taken by the statuses of a task. *)
Record TaskFilter := mkFilter {
  IDs : list string;
  Types : list string;
  Statuses_ : list string;
  BehaviorTypes : list string;
  Usernames : list string;
  StartDateSince : list Time;
  StartDateBefore : list Time;
  EndDateSince : list Time;
  EndDateBefore : list Time;
  IncludeNullEnd : bool;
}.

(** Modelled from the spec: [database.DBTx], a transaction begun under
    a context; [tx_rows] is its view of the rows, private until
    [Commit]. *)
Record DBTx := mkTx {
  tx_ctx : Context;
  tx_rows : list AsyncTask;
}.

(** Modelled from the spec: what every call to the store has in common.
    It fails when the context is done, and it fails when the store
    does. *)
Definition store_call (ctx : Context) : M unit := fun w =>
  if done ctx w then (Err "context deadline exceeded", w)
  else match faults w with
       | [] => (Ok tt, w)
       | f :: fs =>
           let w' := mkWorld (rows w) (db_now w) (now w) fs (uuids w) (logged w) in
           if f then (Err "store failure", w') else (Ok tt, w')
       end.

(** Modelled from the spec: rows are found by their identifier, which
    is unique. *)
Definition has_id (id : string) (t : AsyncTask) : bool := String.eqb (ID t) id.

(** Modelled from the spec: the row of a task, if there is one. *)
Definition find_task (id : string) (rs : list AsyncTask) : option AsyncTask :=
  List.find (has_id id) rs.

(** Modelled from the spec: an update of the row of a task; no row, no
    change. *)
Fixpoint update_task (id : string) (f : AsyncTask -> AsyncTask)
    (rs : list AsyncTask) : list AsyncTask :=
  match rs with
  | [] => []
  | t :: rs' =>
      if has_id id t then f t :: rs' else t :: update_task id f rs'
  end.

(** Modelled from the spec: the rows without the row of a task. *)
Definition remove_task (id : string) (rs : list AsyncTask) : list AsyncTask :=
  List.filter (fun t => negb (has_id id t)) rs.

(** Modelled from the spec: [db.BeginTx(ctx, nil)]. *)
Definition BeginTx (ctx : Context) : M DBTx :=
  store_call ctx ;;
  fun w => (Ok (mkTx ctx (rows w)), w).

(** Modelled from the spec: [tx.Commit()]; the transaction's view
    becomes the committed rows. *)
Definition Commit (tx : DBTx) : M unit :=
  store_call (tx_ctx tx) ;;
  fun w => (Ok tt, mkWorld (tx_rows tx) (db_now w) (now w) (faults w)
                           (uuids w) (logged w)).

(** Modelled from the spec: [get_task(id, include_children)]; an empty
    task, not an error, when there is no such row. *)
Definition GetTask (ctx : Context) (tx : DBTx) (id : string)
    (include_children : bool) : M AsyncTask :=
  store_call ctx ;;
  ret (match find_task id (tx_rows tx) with
       | None => zeroTask
       | Some t =>
           if include_children
           then mkTask (ID t) (TaskType t) (Username t) (TaskData t)
                       (StartDate t) (EndDate t) (Behaviors t) true
                       (Statuses t) true
           else mkTask (ID t) (TaskType t) (Username t) (TaskData t)
                       (StartDate t) (EndDate t) [] false [] false
       end).

(** Modelled from the spec: membership in a set of strings. *)
Definition mem (x : string) (l : list string) : bool :=
  existsb (String.eqb x) l.

(** Modelled from the spec: one dimension of a filter, no constraint
    when it is empty, else any of its values. *)
Definition dim (l : list string) (x : string) : bool :=
  match l with [] => true | _ => mem x l end.

(** Modelled from the spec: a dimension met by any of several values
    of the task (its statuses, the types of its behaviors). *)
Definition dim_any (l : list string) (xs : list string) : bool :=
  match l with [] => true | _ => existsb (fun x => mem x l) xs end.

(** Modelled from the spec: the date is at or after one of the given
    instants. *)
Definition since (l : list Time) (d : Time) : bool :=
  match l with [] => true | _ => existsb (fun s => s <=? d) l end.

(** Modelled from the spec: the date is before one of the given
    instants. *)
Definition before (l : list Time) (d : Time) : bool :=
  match l with [] => true | _ => existsb (fun b => d <? b) l end.

(** Modelled from the spec: neither predicate on a date is present. *)
Definition no_dates (l1 l2 : list Time) : bool :=
  match l1, l2 with [], [] => true | _, _ => false end.

(** Modelled from the spec: the predicates of [get_tasks_by_filter];
    those of one dimension are OR'd, the dimensions are AND'd, and a
    task with a null [end_date] passes the [end_date] predicates only
    when [IncludeNullEnd] is set. *)
Definition matches (f : TaskFilter) (t : AsyncTask) : bool :=
  dim (IDs f) (ID t)
  && dim (Types f) (TaskType t)
  && dim_any (Statuses_ f) (map Status (Statuses t))
  && dim_any (BehaviorTypes f) (map BehaviorType (Behaviors t))
  && dim (Usernames f) (Username t)
  && (no_dates (StartDateSince f) (StartDateBefore f)
      || match StartDate t with
         | None => false
         | Some d => since (StartDateSince f) d && before (StartDateBefore f) d
         end)
  && (no_dates (EndDateSince f) (EndDateBefore f)
      || match EndDate t with
         | None => IncludeNullEnd f
         | Some d => since (EndDateSince f) d && before (EndDateBefore f) d
         end).

(** Modelled from the spec: [start_date ASC], rows without a start
    date last. *)
Definition start_le (a b : AsyncTask) : bool :=
  match StartDate a, StartDate b with
  | Some x, Some y => x <=? y
  | Some _, None => true
  | None, Some _ => false
  | None, None => true
  end.

(** Modelled from the spec: a row put in its place in an ordered
    list, after the rows the order does not put after it. *)
Fixpoint insert_sorted (le : AsyncTask -> AsyncTask -> bool) (t : AsyncTask)
    (l : list AsyncTask) : list AsyncTask :=
  match l with
  | [] => [t]
  | u :: l' => if le u t then u :: insert_sorted le t l' else t :: u :: l'
  end.

(** Modelled from the spec: a stable sort; of two rows the order does
    not separate, the one the store iterates first comes first. *)
Definition sort_by (le : AsyncTask -> AsyncTask -> bool)
    (l : list AsyncTask) : list AsyncTask :=
  fold_left (fun acc t => insert_sorted le t acc) l [].

(** Modelled from the spec: [end_date IS NOT NULL]. *)
Definition ended (t : AsyncTask) : bool :=
  match EndDate t with Some _ => true | None => false end.

(** Modelled from the spec: the order clauses the sources pass; any
    other clause leaves the rows in creation order. *)
Definition order_by (clause : string) (l : list AsyncTask) : list AsyncTask :=
  if String.eqb clause "start_date ASC" then sort_by start_le l
  else if String.eqb clause "end_date IS NOT NULL DESC"
       then List.filter ended l ++ List.filter (fun t => negb (ended t)) l
       else l.

(** Modelled from the spec: [get_tasks_by_filter(filter, order_clause)]. *)
Definition GetTasksByFilter (ctx : Context) (tx : DBTx) (f : TaskFilter)
    (clause : string) : M (list AsyncTask) :=
  store_call ctx ;;
  ret (order_by clause (List.filter (matches f) (tx_rows tx))).

(** Modelled from the spec: the store's clock. *)
Definition DBNow : M Time := fun w => (Ok (db_now w), w).

(** Modelled from the spec: the next identifier the store assigns (a
    UUID). *)
Definition NewID : M string := fun w =>
  match uuids w with
  | [] => (Err "store failure", w)
  | id :: ids =>
      (Ok id, mkWorld (rows w) (db_now w) (now w) (faults w) ids (logged w))
  end.

(** Modelled from the spec: no string occurs twice (the uniqueness
    constraint on the behavior types of a task). *)
Fixpoint distinct (l : list string) : bool :=
  match l with
  | [] => true
  | x :: l' => negb (mem x l') && distinct l'
  end.

(** Modelled from the spec: a status with the created date the store
    assigns. *)
Definition stamp (d : Time) (s : AsyncTaskStatus) : AsyncTaskStatus :=
  mkStatus (Status s) (Detail s) d.

(** Modelled from the spec: [insert_task(task) -> id]; it requires a
    non-empty type, at most one initial status, non-empty if given, and
    a non-empty type for every behavior, of which a task has at most
    one per type.  The store assigns the identifier, the start date
    when none is given, and the date of the initial status. *)
Definition InsertTask (ctx : Context) (tx : DBTx) (task : AsyncTask)
    : M (string * DBTx) :=
  store_call ctx ;;
  if blank (TaskType task) then fail "task type must be provided"
  else if (1 <? Z.of_nat (length (Statuses task))) then fail "too many initial statuses"
  else if existsb (fun s => blank (Status s)) (Statuses task) then fail "blank status"
  else if existsb (fun b => blank (BehaviorType b)) (Behaviors task) then fail "blank behavior type"
  else if negb (distinct (map BehaviorType (Behaviors task))) then fail "duplicate behavior type"
  else
    id <- NewID ;;
    d <- DBNow ;;
    match find_task id (tx_rows tx) with
    | Some _ => fail "duplicate key"
    | None =>
        let row := mkTask id (TaskType task) (Username task) (TaskData task)
                     (Some (default d (StartDate task))) None
                     (Behaviors task) false
                     (map (stamp d) (Statuses task)) false in
        ret (id, mkTx (tx_ctx tx) (tx_rows tx ++ [row]))
    end.

(** Modelled from the spec: the row with one more status, with one
    more behavior, and with its end date set if it was not. *)
Definition add_status (s : AsyncTaskStatus) (t : AsyncTask) : AsyncTask :=
  mkTask (ID t) (TaskType t) (Username t) (TaskData t) (StartDate t)
         (EndDate t) (Behaviors t) (BehaviorsLoaded t)
         (Statuses t ++ [s]) (StatusesLoaded t).

Definition add_behavior (b : AsyncTaskBehavior) (t : AsyncTask) : AsyncTask :=
  mkTask (ID t) (TaskType t) (Username t) (TaskData t) (StartDate t)
         (EndDate t) (Behaviors t ++ [b]) (BehaviorsLoaded t)
         (Statuses t) (StatusesLoaded t).

Definition set_end (d : Time) (t : AsyncTask) : AsyncTask :=
  mkTask (ID t) (TaskType t) (Username t) (TaskData t) (StartDate t)
         (Some (default d (EndDate t))) (Behaviors t) (BehaviorsLoaded t)
         (Statuses t) (StatusesLoaded t).

(** Modelled from the spec: [insert_task_status(status, task_id)], an
    append-only insert that fails if the task does not exist; the
    created date is assigned by the store. *)
Definition InsertTaskStatus (ctx : Context) (tx : DBTx)
    (status : AsyncTaskStatus) (id : string) : M DBTx :=
  store_call ctx ;;
  d <- DBNow ;;
  match find_task id (tx_rows tx) with
  | None => fail "no such task"
  | Some _ =>
      ret (mkTx (tx_ctx tx) (update_task id (add_status (stamp d status)) (tx_rows tx)))
  end.

(** Modelled from the spec: [insert_task_behavior(behavior, task_id)],
    an append-only insert that fails if the task does not exist or
    already has a behavior of that type. *)
Definition InsertTaskBehavior (ctx : Context) (tx : DBTx)
    (behavior : AsyncTaskBehavior) (id : string) : M DBTx :=
  store_call ctx ;;
  match find_task id (tx_rows tx) with
  | None => fail "no such task"
  | Some t =>
      if mem (BehaviorType behavior) (map BehaviorType (Behaviors t))
      then fail "duplicate behavior type"
      else ret (mkTx (tx_ctx tx) (update_task id (add_behavior behavior) (tx_rows tx)))
  end.

(** Modelled from the spec: [complete_task(id)] sets [end_date] to the
    current time if it is unset and leaves it unchanged otherwise. *)
Definition CompleteTask (ctx : Context) (tx : DBTx) (id : string) : M DBTx :=
  store_call ctx ;;
  d <- DBNow ;;
  ret (mkTx (tx_ctx tx) (update_task id (set_end d) (tx_rows tx))).

(** Modelled from the spec: [delete_task(id)] removes the task, and with
    it its statuses and behaviors. *)
Definition DeleteTask (ctx : Context) (tx : DBTx) (id : string) : M DBTx :=
  store_call ctx ;;
  ret (mkTx (tx_ctx tx) (remove_task id (tx_rows tx))).

End database.

(** ** Package [statuschangetimeout] *)
Module statuschangetimeout.
Import time model effects database.

Record StatusChangeTimeoutData := mkRule {
  StartStatus : string;
  EndStatus : string;
  Timeout : string;
  Complete : bool;
  Delete : bool;
}.

Section Processor.

(** [mapstructure.Decode(datum, &taskData)] and [time.ParseDuration]
    belong to libraries, not to this repository: each is a parameter,
    yielding the decoded value or the text of the error. *)
Variable Decode : value -> StatusChangeTimeoutData + string.
Variable ParseDuration : string -> Duration + string.

(** The loop of [processSingleTask] over [fullTask.Statuses], from the
    zero instant and the empty status. *)
Fixpoint latestStatus (comparisonTimestamp : Time) (comparisonStatus : string)
    (statuses : list AsyncTaskStatus) : Time * string :=
  match statuses with
  | [] => (comparisonTimestamp, comparisonStatus)
  | status :: rest =>
      if After (CreatedDate status) comparisonTimestamp
      then latestStatus (CreatedDate status) (Status status) rest
      else latestStatus comparisonTimestamp comparisonStatus rest
  end.

(** [comparisonTimestamp] and [comparisonStatus]; [None] is the panic of
    [*fullTask.StartDate] on a nil pointer. *)
Definition comparison (fullTask : AsyncTask) : option (Time * string) :=
  if (Z.of_nat (length (Statuses fullTask)) =? 0)
  then match StartDate fullTask with
       | None => None
       | Some d => Some (d, "")
       end
  else Some (latestStatus 0 "" (Statuses fullTask)).

(** [err = errors.Wrap(err, msg); log.Error(err); return err] *)
Definition orDie {A} (msg : string) (c : M A) : M A :=
  r <- catch c ;;
  match r with
  | inl a => ret a
  | inr e => logf LError (Wrap e msg) ;; fail (Wrap e msg)
  end.

(** The test of one rule, [time.Now()] being [n]. *)
Definition ready (comparisonTimestamp : Time) (comparisonStatus : string)
    (timeout : Duration) (taskData : StatusChangeTimeoutData) (n : Time) : bool :=
  Before (Add comparisonTimestamp timeout) n
  && String.eqb comparisonStatus (StartStatus taskData).

(** What a rule that is ready does to the task. *)
Definition fire (ctx : Context) (ID : string)
    (taskData : StatusChangeTimeoutData) (tx : DBTx) : M DBTx :=
  let newstatus := mkStatus (EndStatus taskData) "" 0 in
  tx <- orDie "failed inserting task status"
          (InsertTaskStatus ctx tx newstatus ID) ;;
  tx <- (if Complete taskData
         then orDie "failed setting task complete" (CompleteTask ctx tx ID)
         else ret tx) ;;
  tx <- (if Delete taskData
         then orDie "failed deleting task" (DeleteTask ctx tx ID)
         else ret tx) ;;
  logf LInfo "Updated task with time %s and timeout %s from '%s' to '%s', set complete: %t, deleted: %t" ;;
  ret tx.

(** The loop over [data], the rules of one behavior. *)
Fixpoint rulesLoop (ctx : Context) (ID : string) (comparisonTimestamp : Time)
    (comparisonStatus : string) (data : list value) (tx : DBTx) : M DBTx :=
  match data with
  | [] => ret tx
  | datum :: rest =>
      match Decode datum with
      | inr e =>
          logf LError (Wrap e "failed decoding behavior") ;;
          rulesLoop ctx ID comparisonTimestamp comparisonStatus rest tx
      | inl taskData =>
          match ParseDuration (Timeout taskData) with
          | inr e =>
              logf LError (Wrap e "failed parsing timeout duration") ;;
              rulesLoop ctx ID comparisonTimestamp comparisonStatus rest tx
          | inl timeout =>
              n <- Now ;;
              tx <- (if ready comparisonTimestamp comparisonStatus timeout taskData n
                     then fire ctx ID taskData tx
                     else logf LInfo "Task was not ready to update given time %s, timeout %s, and status '%s'" ;;
                          ret tx) ;;
              rulesLoop ctx ID comparisonTimestamp comparisonStatus rest tx
          end
      end
  end.

(** The loop over [fullTask.Behaviors]. *)
Fixpoint behaviorsLoop (ctx : Context) (ID : string) (comparisonTimestamp : Time)
    (comparisonStatus : string) (behaviors : list AsyncTaskBehavior)
    (tx : DBTx) : M DBTx :=
  match behaviors with
  | [] => ret tx
  | behavior :: rest =>
      if String.eqb (BehaviorType behavior) "statuschangetimeout"
      then match Data behavior !! "statuses" with
           | Some (VArray data) =>
               tx <- rulesLoop ctx ID comparisonTimestamp comparisonStatus data tx ;;
               behaviorsLoop ctx ID comparisonTimestamp comparisonStatus rest tx
           | _ =>
               logf LError "Behavior data is not an array" ;;
               fail "Behavior data is not an array"
           end
      else behaviorsLoop ctx ID comparisonTimestamp comparisonStatus rest tx
  end.

(** [rollbackLogError] abandons the transaction's view and touches no
    row; the deferred calls to it are left out.  A formatted message is
    logged as its format. *)
Definition processSingleTask (ctx : Context) (ID : string) : M unit :=
  d <- Done ctx ;;
  if d then ret tt
  else
    tx <- BeginTx ctx ;;
    fullTask <- orDie "failed getting task" (GetTask ctx tx ID true) ;;
    match comparison fullTask with
    | None => panic
    | Some (comparisonTimestamp, comparisonStatus) =>
        logf LInfo "Most recent timestamp for task %s: %s" ;;
        tx <- behaviorsLoop ctx ID comparisonTimestamp comparisonStatus
                (Behaviors fullTask) tx ;;
        r <- catch (Commit tx) ;;
        match r with
        | inl _ => ret tt
        | inr e => logf LError (Wrap e "failed committing transaction")
        end
    end.

(** The loop labelled [ProcessLoop]. *)
Fixpoint ProcessLoop (ctx : Context) (tasks : list AsyncTask) : M unit :=
  match tasks with
  | [] => ret tt
  | task :: rest =>
      d <- Done ctx ;;
      if d
      then logf LInfo "Not continuing to process tasks due to a canceled context."
      else
        r <- catch (processSingleTask ctx (ID task)) ;;
        match r with
        | inl _ => ret tt
        | inr e => logf LError (Wrap e "failed processing a task")
        end ;;
        ProcessLoop ctx rest
  end.

Definition Processor (ctx : Context) (tickerTime : Time) : M unit :=
  let filter := mkFilter [] [] [] ["statuschangetimeout"] [] [] [] [] [] false in
  tx <- BeginTx ctx ;;
  tasks <- GetTasksByFilter ctx tx filter "end_date IS NOT NULL DESC" ;;
  logf LInfo "Tasks with statuschangetimeout behavior: %d" ;;
  ProcessLoop ctx tasks.

End Processor.

End statuschangetimeout.

(** ** Package [main]: [updater.go] *)
Module updater.
Import time model effects database.

Definition BehaviorProcessor : Type := Context -> Time -> M unit.

Record AsyncTasksUpdater := mkUpdater {
  behaviorProcessors : gmap string BehaviorProcessor;
}.

Definition NewAsyncTasksUpdater : AsyncTasksUpdater := mkUpdater ∅.

Definition AddBehavior (u : AsyncTasksUpdater) (behaviorType : string)
    (processor : BehaviorProcessor) : AsyncTasksUpdater :=
  mkUpdater (<[behaviorType := processor]> (behaviorProcessors u)).

(** [fmt.Sprintf("behaviorprocessor-%s", behaviorType)] *)
Definition markerType (behaviorType : string) : string :=
  "behaviorprocessor-" +:+ behaviorType.

(** [updater.go] calls the methods of a transaction without a context
    argument; they run under the context the transaction was begun
    with. *)
Definition createBehaviorProcessorTask (ctx : Context) (behaviorType : string)
    : M string :=
  tx <- BeginTx ctx ;;
  let task := mkTask "" (markerType behaviorType) "" ∅ None None [] false [] false in
  r <- InsertTask ctx tx task ;;
  Commit (snd r) ;;
  ret (fst r).

(** The loop of [checkOldest]; [None] is the panic of
    [task.StartDate.Before] on a nil pointer, and the [break] ends the
    loop with [isOldest] false. *)
Fixpoint oldestLoop (oldestTime : option Time) (isOldest : bool)
    (tasks : list AsyncTask) (taskID : string) : option bool :=
  match tasks with
  | [] => Some isOldest
  | task :: rest =>
      let older :=
        match oldestTime with
        | None => Some true
        | Some o =>
            if IsZero o then Some true
            else match StartDate task with
                 | None => None
                 | Some s => Some (Before s o)
                 end
        end in
      match older with
      | None => None
      | Some true =>
          if String.eqb (ID task) taskID
          then oldestLoop (StartDate task) true rest taskID
          else Some false
      | Some false => oldestLoop oldestTime isOldest rest taskID
      end
  end.

Section CheckOldest.

(** [Time.AddDate] is calendar arithmetic of the standard library: a
    parameter. *)
Variable AddDate : Time -> Z -> Z -> Z -> Time.

Definition claimFilter (behaviorType : string) (n : Time) : TaskFilter :=
  mkFilter [] [markerType behaviorType] [] [] []
           [Add n (Minute * -12)] [] [AddDate n 1 0 0] [] true.

Definition checkOldest (ctx : Context) (behaviorType : string)
    (taskID : string) : M unit :=
  tx <- BeginTx ctx ;;
  n <- Now ;;
  tasks <- GetTasksByFilter ctx tx (claimFilter behaviorType n) "start_date ASC" ;;
  t <- Now ;;
  match oldestLoop (Some t) true tasks taskID with
  | None => panic
  | Some isOldest =>
      if negb isOldest
      then fail "The provided ID is not the oldest task of its type"
      else ret tt
  end.

(** The pair [(id, err)] that [checkAlone] returns; [None] is a nil
    error. *)
Definition checkAlone (ctx : Context) (behaviorType : string)
    : M (string * option string) :=
  r <- catch (createBehaviorProcessorTask ctx behaviorType) ;;
  match r with
  | inr e => ret ("", Some e)
  | inl id =>
      r <- catch (checkOldest ctx behaviorType id) ;;
      ret (id, match r with inl _ => None | inr e => Some e end)
  end.

Definition finishTask (ctx : Context) (taskID : string) : M unit :=
  tx <- BeginTx ctx ;;
  logf LInfo "Completing task %s" ;;
  tx <- CompleteTask ctx tx taskID ;;
  Commit tx.

Definition finishTaskLogError (ctx : Context) (taskID : string) : M unit :=
  r <- catch (finishTask ctx taskID) ;;
  match r with
  | inl _ => ret tt
  | inr e => logf LError e
  end.

Definition deleteTask (ctx : Context) (taskID : string) : M unit :=
  tx <- BeginTx ctx ;;
  logf LInfo "Deleting task %s" ;;
  tx <- DeleteTask ctx tx taskID ;;
  Commit tx.

(** What the goroutine of [DoPeriodicUpdate] does once [checkAlone] has
    returned [(taskID, err)]. *)
Definition outcome (ctx : Context) (behaviorType : string)
    (processor : BehaviorProcessor) (tickerTime : Time)
    (taskID : string) (err : option string) : M unit :=
  match err with
  | Some e =>
      logf LError (Wrap e "We are not the oldest process for this behavior type") ;;
      if negb (blank taskID)
      then
        r <- catch (deleteTask ctx taskID) ;;
        match r with
        | inl _ => ret tt
        | inr e => logf LError (Wrap e "Failed to delete task")
        end
      else ret tt
  | None =>
      defer
        (logf LInfo "Processing behavior type %s for time %s (task ID %s)" ;;
         r <- catch (processor ctx tickerTime) ;;
         match r with
         | inl _ => ret tt
         | inr e => logf LError e
         end ;;
         logf LInfo "Done processing behavior type %s for time %s")
        (if negb (blank taskID)
         then finishTaskLogError Background taskID
         else ret tt)
  end.

(** The function [DoPeriodicUpdate] starts as a goroutine for each
    registered behavior type: one attempt of the protocol. *)
Definition attempt (ctx : Context) (behaviorType : string)
    (processor : BehaviorProcessor) (tickerTime : Time) : M unit :=
  r <- checkAlone ctx behaviorType ;;
  outcome ctx behaviorType processor tickerTime (fst r) (snd r).

(** [DoPeriodicUpdate] starts the attempts of one tick as goroutines
    and waits for all of them.  Here they run one after the other, in
    the order of the registry's keys; how they interleave is not
    modelled. *)
Definition DoPeriodicUpdate (u : AsyncTasksUpdater) (ctx : Context)
    (tickerTime : Time) : M unit :=
  logf LInfo "Running update with time %s" ;;
  foldr (fun bp k => attempt ctx (fst bp) (snd bp) tickerTime ;; k)
        (ret tt) (map_to_list (behaviorProcessors u)) ;;
  logf LInfo "Done running update with time %s".

End CheckOldest.

End updater.

(** ** Package [main]: [app.go] *)
Module app.
Import time model effects database.

(** What [json.Unmarshal] makes of a request body, after [io.ReadAll]
    and [Body.Close]: each of the three may fail, with the text of its
    error. *)
Inductive Payload (A : Type) : Type :=
  | ReadFailed (e : string)
  | CloseFailed (e : string)
  | Malformed (e : string)
  | Decoded (a : A).
Arguments ReadFailed {A} e.
Arguments CloseFailed {A} e.
Arguments Malformed {A} e.
Arguments Decoded {A} a.

(** An [http.Request] as the handlers read it: [mux.Vars], the URL's
    query, the request's context and its body. *)
Record Request (A : Type) := mkRequest {
  Vars : gmap string string;
  Query : gmap string (list string);
  Ctx : Context;
  Body : Payload A;
}.
Arguments mkRequest {A}.
Arguments Vars {A}.
Arguments Query {A}.
Arguments Ctx {A}.
Arguments Body {A}.

Record ErrorResp := mkErrorResp { Msg : string }.

(** What was written to the [http.ResponseWriter]: the JSON of an
    [ErrorResp], the JSON of a task, or nothing. *)
Inductive Written : Type :=
  | Nothing
  | ErrorJson (e : ErrorResp)
  | TaskJson (t : AsyncTask).

Record Response := mkResponse {
  StatusCode : Z;
  Content : Written;
  Location : option string;
}.

Definition StatusOK : Z := 200.
Definition StatusCreated : Z := 201.
Definition StatusBadRequest : Z := 400.
Definition StatusNotFound : Z := 404.
Definition StatusInternalServerError : Z := 500.

Definition makeErrorJson (msg : string) : Written := ErrorJson (mkErrorResp msg).

Definition badRequest (msg : string) : M Response :=
  logf LError msg ;;
  ret (mkResponse StatusBadRequest (makeErrorJson msg) None).

Definition errored (msg : string) : M Response :=
  logf LError msg ;;
  ret (mkResponse StatusInternalServerError (makeErrorJson msg) None).

Definition notFound (msg : string) : M Response :=
  logf LError msg ;;
  ret (mkResponse StatusNotFound (makeErrorJson msg) None).

(** [x, err := c; if err != nil { errored(writer, err.Error()); return }] *)
Definition orErrored {A} (c : M A) (k : A -> M Response) : M Response :=
  r <- catch c ;;
  match r with
  | inl a => k a
  | inr e => errored e
  end.

(** [err = tx.Commit(); if err != nil { log.Error(err.Error()) }] *)
Definition commitLogError (tx : DBTx) : M unit :=
  r <- catch (Commit tx) ;;
  match r with
  | inl _ => ret tt
  | inr e => logf LError e
  end.

(** The body of the three handlers that read one: read, close, decode. *)
Definition readBody {A} (r : Request A) (k : A -> M Response) : M Response :=
  match Body r with
  | ReadFailed e => errored e
  | CloseFailed e => errored e
  | Malformed e => errored e
  | Decoded a => k a
  end.

(** The path of the route named [getById] for an identifier. *)
Definition getByIdURL (id : string) : string := "/tasks/" +:+ id.

Definition created (id : string) : M Response :=
  ret (mkResponse StatusCreated Nothing (Some (getByIdURL id))).

Definition GetByIdRequest (r : Request unit) : M Response :=
  let ctx := Ctx r in
  match Vars r !! "id" with
  | None => badRequest "No ID in URL"
  | Some id =>
      orErrored (BeginTx ctx) (fun tx =>
      orErrored (GetTask ctx tx id false) (fun task =>
      if blank (ID task) then notFound "not found"
      else ret (mkResponse StatusOK (TaskJson task) None)))
  end.

Definition DeleteByIdRequest (r : Request unit) : M Response :=
  let ctx := Ctx r in
  match Vars r !! "id" with
  | None => badRequest "No ID in URL"
  | Some id =>
      orErrored (BeginTx ctx) (fun tx =>
      orErrored (GetTask ctx tx id true) (fun task =>
      if blank (ID task) then notFound "not found"
      else
        orErrored (DeleteTask ctx tx id) (fun tx =>
        commitLogError tx ;;
        ret (mkResponse StatusOK Nothing None))))
  end.

Definition CreateTaskRequest (r : Request AsyncTask) : M Response :=
  let ctx := Ctx r in
  readBody r (fun rawtask =>
  if blank (TaskType rawtask)
  then errored "Task type must be provided"
  else if existsb (fun behavior => blank (BehaviorType behavior)) (Behaviors rawtask)
  then errored "All behaviors must have a type"
  else if (1 <? Z.of_nat (length (Statuses rawtask)))
  then errored "A new task may only include one initial status"
  else if match Statuses rawtask with
          | [] => false
          | status :: _ => blank (Status status)
          end
  then errored "A blank status is not allowed"
  else
    orErrored (BeginTx ctx) (fun tx =>
    orErrored (InsertTask ctx tx rawtask) (fun r =>
    commitLogError (snd r) ;;
    created (fst r)))).

Definition AddStatusRequest (r : Request AsyncTaskStatus) : M Response :=
  let ctx := Ctx r in
  match Vars r !! "id" with
  | None => badRequest "No ID in URL"
  | Some id =>
      let complete :=
        match Query r !! "complete" with
        | Some (v :: _) => negb (blank v)
        | _ => false
        end in
      orErrored (BeginTx ctx) (fun tx =>
      orErrored (GetTask ctx tx id true) (fun task =>
      if blank (ID task) then notFound "not found"
      else
        readBody r (fun rawstatus =>
        orErrored (InsertTaskStatus ctx tx rawstatus id) (fun tx =>
        orErrored (if complete then CompleteTask ctx tx id else ret tx) (fun tx =>
        commitLogError tx ;;
        created id)))))
  end.

Definition AddBehaviorRequest (r : Request AsyncTaskBehavior) : M Response :=
  let ctx := Ctx r in
  match Vars r !! "id" with
  | None => badRequest "No ID in URL"
  | Some id =>
      orErrored (BeginTx ctx) (fun tx =>
      orErrored (GetTask ctx tx id true) (fun task =>
      if blank (ID task) then notFound "not found"
      else
        readBody r (fun rawbehavior =>
        orErrored (InsertTaskBehavior ctx tx rawbehavior id) (fun tx =>
        commitLogError tx ;;
        created id))))
  end.

End app.

(** ** Instances of the library functions

    The development is parametric in [mapstructure.Decode],
    [time.ParseDuration] and [Time.AddDate].  To run it on concrete
    inputs, each parameter gets an instance that agrees with the library
    on the inputs used here: rules given as JSON objects with
    well-typed fields, durations written as a decimal number followed by
    one unit, and whole years of 365 days. *)
Module instances.
Import time model effects statuschangetimeout.

Definition field_string (m : gmap string value) (k : string) : string + string :=
  match m !! k with
  | None => inl ""
  | Some (VString s) => inl s
  | Some _ => inr ("'" +:+ k +:+ "' expected type 'string'")
  end.

Definition field_bool (m : gmap string value) (k : string) : bool + string :=
  match m !! k with
  | None => inl false
  | Some (VBool b) => inl b
  | Some _ => inr ("'" +:+ k +:+ "' expected type 'bool'")
  end.

Definition Decode (datum : value) : StatusChangeTimeoutData + string :=
  match datum with
  | VObject m =>
      match field_string m "start_status", field_string m "end_status",
            field_string m "timeout", field_bool m "complete",
            field_bool m "delete" with
      | inl s, inl e, inl t, inl c, inl d => inl (mkRule s e t c d)
      | inr e, _, _, _, _ => inr e
      | _, inr e, _, _, _ => inr e
      | _, _, inr e, _, _ => inr e
      | _, _, _, inr e, _ => inr e
      | _, _, _, _, inr e => inr e
      end
  | _ => inr "expected a map"
  end.

Definition digit (c : Ascii.ascii) : option Z :=
  let n := Z.of_N (Ascii.N_of_ascii c) in
  if (48 <=? n) && (n <=? 57) then Some (n - 48) else None.

Fixpoint leadingInt (acc : Z) (seen : bool) (s : string) : option Z * string :=
  match s with
  | String c s' =>
      match digit c with
      | Some d => leadingInt (10 * acc + d) true s'
      | None => (if seen then Some acc else None, s)
      end
  | EmptyString => (if seen then Some acc else None, s)
  end.

Definition unit_of (u : string) : option Duration :=
  if String.eqb u "ns" then Some Nanosecond
  else if String.eqb u "us" then Some (1000 * Nanosecond)
  else if String.eqb u "ms" then Some (1000000 * Nanosecond)
  else if String.eqb u "s" then Some Second
  else if String.eqb u "m" then Some Minute
  else if String.eqb u "h" then Some (60 * Minute)
  else None.

Definition ParseDuration (s : string) : Duration + string :=
  match leadingInt 0 false s with
  | (Some v, u) =>
      match unit_of u with
      | Some d => if v * d <? 2 ^ 63 then inl (v * d) else inr "time: invalid duration"
      | None => inr "time: unknown unit in duration"
      end
  | (None, _) => inr "time: invalid duration"
  end.

Definition AddDate (t : Time) (years months days : Z) : Time :=
  t + (years * 365 + months * 30 + days) * (24 * 60 * Minute).

End instances.

(** ** Predicates of the specification *)
Module props.
Import time model effects database statuschangetimeout updater.

(** A list of tasks ordered ascending by [start_date]. *)
Fixpoint ascending (l : list AsyncTask) : bool :=
  match l with
  | [] => true
  | a :: rest => forallb (start_le a) rest && ascending rest
  end.

(** The task started before [t], and not at the zero instant. *)
Definition started_before (t : Time) (task : AsyncTask) : bool :=
  match StartDate task with
  | Some s => negb (IsZero s) && Before s t
  | None => false
  end.

(** The earliest entry of an ordered list has the given identifier. *)
Definition earliest_is (tasks : list AsyncTask) (taskID : string) : bool :=
  match tasks with
  | [] => false
  | task :: _ => String.eqb (ID task) taskID
  end.

(** [checkOldest] returns a nil error on the list its query returned,
    [t] being the instant it read after the query. *)
Definition wins (t : Time) (tasks : list AsyncTask) (taskID : string) : Prop :=
  oldestLoop (Some t) true tasks taskID = Some true.

(** A world is calm under a context when the context is not done and
    the store has no failure in stock. *)
Definition calm (ctx : Context) (w : World) : Prop :=
  done ctx w = false ∧ faults w = [].

(** The world after some entries were logged. *)
Definition logs (w : World) (entries : list (Level * string)) : World :=
  mkWorld (rows w) (db_now w) (now w) (faults w) (uuids w) (logged w ++ entries).

(** The world after some rows were committed. *)
Definition with_rows (w : World) (rs : list AsyncTask) : World :=
  mkWorld rs (db_now w) (now w) (faults w) (uuids w) (logged w).

(** What the design document asks of a rule that is ready: a new status
    equal to [end_status]; the task completed if [complete] is set;
    the task deleted if [delete] is set.  [d] is the store's clock. *)
Definition ruleEffect (d : Time) (taskData : StatusChangeTimeoutData)
    (ID : string) (rs : list AsyncTask) : list AsyncTask :=
  let rs := update_task ID (add_status (mkStatus (EndStatus taskData) "" d)) rs in
  let rs := if Complete taskData then update_task ID (set_end d) rs else rs in
  if Delete taskData then remove_task ID rs else rs.

(** The scenario of the design document: a task that started at [T],
    has no statuses and carries one rule, which decodes to
    [scenarioRule]. *)
Definition scenarioRule : StatusChangeTimeoutData :=
  mkRule "" "done" "1m" true false.

Definition timeoutBehavior (data : list value) : AsyncTaskBehavior :=
  mkBehavior "statuschangetimeout" {[ "statuses" := VArray data ]}.

Definition scenarioTask (id ty : string) (T : Time) (datum : value)
    (end_date : option Time) (statuses : list AsyncTaskStatus) : AsyncTask :=
  mkTask id ty "" ∅ (Some T) end_date [timeoutBehavior [datum]] false
         statuses false.

(** The task [id] is in the store and has no end date. *)
Definition in_progress (id : string) (w : World) : Prop :=
  ∃ m, find_task id (rows w) = Some m ∧ EndDate m = None.

(** Two worlds that differ at most in what was logged. *)
Definition same_store (w1 w2 : World) : Prop :=
  rows w1 = rows w2 ∧ db_now w1 = db_now w2 ∧ now w1 = now w2
  ∧ faults w1 = faults w2 ∧ uuids w1 = uuids w2.

(** Two computations that, on worlds that differ at most in the log,
    return the same and leave worlds that differ at most in the log. *)
Definition related {A} (c1 c2 : M A) : Prop :=
  ∀ w1 w2, same_store w1 w2 →
    fst (c1 w1) = fst (c2 w2) ∧ same_store (snd (c1 w1)) (snd (c2 w2)).

(** A rule that decodes and whose timeout parses. *)
Definition usable (Decode : value → StatusChangeTimeoutData + string)
    (ParseDuration : string → Duration + string) (datum : value) : bool :=
  match Decode datum with
  | inr _ => false
  | inl taskData =>
      match ParseDuration (Timeout taskData) with
      | inr _ => false
      | inl _ => true
      end
  end.

End props.

(** ** Concrete inputs

    The tasks, stores and requests on which the properties below are
    exercised. *)
Module examples.
Import time model effects database statuschangetimeout updater app props.

(** An instant of the year 2025. *)
Definition T0 : Time := 63900000000 * Second.

(** Identifiers as the store assigns them. *)
Definition claim1 : string := "5d1c9e0a-2f4b-4c8e-8a77-3b5c2d1ec1e7".
Definition claim2 : string := "e07b6a35-91d2-4f0c-b6de-84a1f09ac2a9".
Definition timed_task : string := "9a3f1f0e-7b2d-4e5a-b1c4-6d2e8f105c3a".
Definition open_task_id : string := "0b6ff2a4-6e0c-4b61-9d65-3a1f3e5c7a10".
Definition next_id : string := "3c9d2b7e-58a4-4d19-a0f3-7e6b5c4d9f2e".

Definition marker (id : string) (start : Time) : AsyncTask :=
  mkTask id (markerType "statuschangetimeout") "" ∅ (Some start) None
         [] false [] false.

(** Two claims whose start dates lie after the instant the checking
    process reads from its own clock. *)
Definition postdated_claims : list AsyncTask :=
  [marker claim1 (T0 + 5 * Second); marker claim2 (T0 + 6 * Second)].

Definition postdated_world : World :=
  mkWorld postdated_claims (T0 + 6 * Second) T0 [] [] [].

(** Two claims made before the check. *)
Definition past_claims : list AsyncTask :=
  [marker claim1 (T0 - 2 * Second); marker claim2 (T0 - Second)].

(** A task with three statuses, the two latest created at the same
    instant. *)
Definition three_statuses : AsyncTask :=
  mkTask open_task_id "analysis" "ana" ∅ (Some T0) None [] true
         [mkStatus "queued" "" (T0 + Second);
          mkStatus "running" "" (T0 + 9 * Second);
          mkStatus "held" "" (T0 + 9 * Second)] true.

(** The rule of the scenario, as the JSON object a client sends. *)
Definition rule_done : value :=
  VObject {[ "start_status" := VString ""; "end_status" := VString "done";
             "timeout" := VString "1m"; "complete" := VBool true ]}.

(** The store of the scenario: the task alone, both clocks at [n]. *)
Definition scenario_world (n : Time) : World :=
  mkWorld [scenarioTask timed_task "analysis" T0 rule_done None []] n n [] [] [].

(** Two rules the processor cannot use: one is not an object, the
    other has a timeout that is not a duration. *)
Definition rule_not_an_object : value := VString "done".

Definition rule_bad_timeout : value :=
  VObject {[ "start_status" := VString ""; "end_status" := VString "done";
             "timeout" := VString "soon" ]}.

(** A rule whose end status is empty, and a store holding one task that
    carries it and started more than a minute before the clocks' time. *)
Definition rule_blank_end : value :=
  VObject {[ "start_status" := VString ""; "end_status" := VString "";
             "timeout" := VString "1m" ]}.

Definition blank_end_world : World :=
  mkWorld [scenarioTask timed_task "analysis" T0 rule_blank_end None []]
          (T0 + 2 * Minute) (T0 + 2 * Minute) [] [] [].

(** An empty store whose eighth call will fail, its clock a second
    behind the process's, and the ten-minute context of a tick. *)
Definition eighth_call_fails : World :=
  mkWorld [] (T0 - Second) T0
          [false; false; false; false; false; false; false; true]
          [claim1] [].

Definition tick_ctx : Context := WithTimeout (T0 + 10 * Minute).

(** An empty store that does not fail. *)
Definition empty_world : World :=
  mkWorld [] (T0 - Second) T0 [] [claim1] [].

(** A store in which another process holds an earlier claim. *)
Definition claimed_world : World :=
  mkWorld [marker claim1 (T0 - 2 * Second)] (T0 - Second) T0 [] [claim2] [].

(** A store in which two processes hold a claim each. *)
Definition two_claims_world : World :=
  mkWorld past_claims (T0 - Second) T0 [] [] [].

(** The same, with the claim a process left open when it stopped five
    minutes before. *)
Definition stale_claim : string := "b41e07c2-3a6d-4c55-9e18-2f7d6a90e5d4".

Definition stale_world : World :=
  mkWorld (marker stale_claim (T0 - 5 * Minute) :: past_claims)
          (T0 - Second) T0 [] [] [].

(** A store holding one open task, and no failure in stock. *)
Definition open_task : AsyncTask :=
  mkTask open_task_id "analysis" "ana" ∅ (Some T0) None [] false
         [mkStatus "queued" "" (T0 + Second)] false.

Definition one_task_world : World :=
  mkWorld [open_task] (T0 + Minute) (T0 + Minute) [] [next_id] [].

(** The same store, about to fail at the next call. *)
Definition failing_world : World :=
  mkWorld [open_task] (T0 + Minute) (T0 + Minute) [true] [next_id] [].

(** [POST /tasks] with a task without a type. *)
Definition create_without_type : Request AsyncTask :=
  mkRequest ∅ ∅ Background
    (Decoded (mkTask "" "" "ana" ∅ None None [] false [] false)).

(** [POST /tasks] with a well-formed task. *)
Definition create_analysis : Request AsyncTask :=
  mkRequest ∅ ∅ Background
    (Decoded (mkTask "" "analysis" "ana" ∅ None None [] false [] false)).

(** [POST /tasks/{id}/status] for the open task, with an empty status. *)
Definition add_blank_status : Request AsyncTaskStatus :=
  mkRequest {[ "id" := open_task_id ]} ∅ Background
    (Decoded (mkStatus "" "" 0)).

End examples.

(** ** Package [main]: [main.go] *)
Module main.

(** [strings.HasPrefix(addr, ":")] is [String.prefix ":" addr], and
    [fmt.Sprintf(":%s", addr)] puts a colon before [addr]. *)
Definition fixAddr (addr : string) : string :=
  if negb (String.prefix ":" addr) then ":" +:+ addr else addr.

End main.

(** ** Package [main]: [app.go], the listing of tasks *)
Module listing.
Import time model effects database app.

(** What [GetByFilterRequest] answers: one of the error responses, or
    the JSON of a list of tasks with the status 200 that a first
    [Write] implies. *)
Inductive Listing : Type :=
  | Refused (r : Response)
  | TasksJson (tasks : list AsyncTask).

Section GetByFilter.

(** [time.Parse(time.RFC3339Nano, s)] belongs to the standard library:
    a parameter, yielding the instant or the text of the error. *)
Variable Parse : string -> Time + string.

(** Each of the four loops over the values of a date parameter: the
    values are parsed in order and appended to the field of the filter,
    which is empty before; the first that does not parse ends the
    handler with its error. *)
Fixpoint parseDates (values : list string) (parsed : list Time)
    : list Time + string :=
  match values with
  | [] => inl parsed
  | v :: rest =>
      match Parse v with
      | inr e => inr e
      | inl t => parseDates rest (parsed ++ [t])
      end
  end.

(** [v[k]] on a [url.Values]: the values of the key, none when the key
    is absent. *)
Definition values (v : gmap string (list string)) (k : string) : list string :=
  default [] (v !! k).

Definition refused (msg : string) : M Listing :=
  r <- errored msg ;; ret (Refused r).

Definition GetByFilterRequest (r : Request unit) : M Listing :=
  let v := Query r in
  let ctx := Ctx r in
  let null_end := values v "include_null_end" in
  let IncludeNullEnd := (0 <? Z.of_nat (length null_end)) in
  match parseDates (values v "start_date_since") [] with
  | inr e => refused e
  | inl StartDateSince =>
  match parseDates (values v "start_date_before") [] with
  | inr e => refused e
  | inl StartDateBefore =>
  match parseDates (values v "end_date_since") [] with
  | inr e => refused e
  | inl EndDateSince =>
  match parseDates (values v "end_date_before") [] with
  | inr e => refused e
  | inl EndDateBefore =>
      let filters :=
        mkFilter (values v "id") (values v "type") (values v "status")
                 (values v "behavior_types") (values v "username")
                 StartDateSince StartDateBefore EndDateSince EndDateBefore
                 IncludeNullEnd in
      r <- catch (BeginTx ctx) ;;
      match r with
      | inr e => refused e
      | inl tx =>
          r <- catch (GetTasksByFilter ctx tx filters "") ;;
          match r with
          | inr e => refused e
          | inl tasks => ret (TasksJson tasks)
          end
      end
  end end end end.

End GetByFilter.

End listing.

(** ** Judgements on computations

    What a computation does to the committed rows, whatever the store
    and the context do to it. *)
Module laws.
Import time model effects database statuschangetimeout updater app.

(** [c], run on rows [rs], leaves them as they are unless it returns a
    value; the value it returns and the rows it leaves satisfy [Q]; it
    panics only if [may_panic] is set. *)
Definition yields {A} (may_panic : bool) (rs : list AsyncTask) (c : M A)
    (Q : A -> list AsyncTask -> Prop) : Prop :=
  forall w, rows w = rs ->
    match c w with
    | (Ok a, w') => Q a (rows w')
    | (Err _, w') => rows w' = rs
    | (Panic, w') => may_panic = true /\ rows w' = rs
    end.

(** [c] never changes the rows, and a value it returns satisfies [P]. *)
Definition reads {A} (may_panic : bool) (rs : list AsyncTask) (c : M A)
    (P : A -> Prop) : Prop :=
  yields may_panic rs c (fun a rs' => rs' = rs /\ P a).

(** [c], run on rows [rs], always returns a value, and the value and
    the rows it leaves satisfy [Q]. *)
Definition answers {A} (rs : list AsyncTask) (c : M A)
    (Q : A -> list AsyncTask -> Prop) : Prop :=
  forall w, rows w = rs -> exists a w', c w = (Ok a, w') /\ Q a (rows w').

(** [c] returns a value or panics, never an error. *)
Definition no_error {A} (c : M A) : Prop :=
  forall w e, fst (c w) <> Err e.

(** [c] leaves the row of every task whose identifier satisfies [P] as
    it finds it. *)
Definition spares {A} (P : string -> Prop) (c : M A) : Prop :=
  forall w id, P id -> find_task id (rows (snd (c w))) = find_task id (rows w).

(** The rows [rs'] are the rows [rs], but for the task [ID]. *)
Definition only_at (ID : string) (rs rs' : list AsyncTask) : Prop :=
  forall id, id <> ID -> find_task id rs' = find_task id rs.

(** The task has a behavior of the given type. *)
Definition carries (behaviorType : string) (t : AsyncTask) : bool :=
  existsb (fun b => String.eqb (BehaviorType b) behaviorType) (Behaviors t).

(** Whether a rule is due, for the rules the processor can use. *)
Definition due (Decode : value -> StatusChangeTimeoutData + string)
    (ParseDuration : string -> Duration + string)
    (comparisonTimestamp : Time) (comparisonStatus : string) (n : Time)
    (datum : value) : bool :=
  match Decode datum with
  | inr _ => false
  | inl taskData =>
      match ParseDuration (Timeout taskData) with
      | inr _ => false
      | inl timeout => ready comparisonTimestamp comparisonStatus timeout taskData n
      end
  end.

(** The row [InsertTask] makes of a claim of a behavior type. *)
Definition claim_row (id behaviorType : string) (d : Time) : AsyncTask :=
  mkTask id (markerType behaviorType) "" ∅ (Some d) None [] false [] false.

(** A task as [GetTask] returns it without its children. *)
Definition childless (t : AsyncTask) : AsyncTask :=
  mkTask (ID t) (TaskType t) (Username t) (TaskData t) (StartDate t)
         (EndDate t) [] false [] false.

(** The request with another query and another body. *)
Definition with_query {A} (r : Request A) (q : gmap string (list string))
    : Request A :=
  mkRequest (Vars r) q (Ctx r) (Body r).

Definition with_body {A B} (r : Request A) (b : Payload B) : Request B :=
  mkRequest (Vars r) (Query r) (Ctx r) b.

End laws.

(** ** Further inputs

    The stores and requests on which the further properties are
    exercised. *)
Module samples.
Import time model effects database statuschangetimeout updater app props examples laws.

(** A store holding a task whose rule is due and a task without
    behaviors. *)
Definition mixed_world : World :=
  mkWorld [scenarioTask timed_task "analysis" T0 rule_done None []; open_task]
          (T0 + 2 * Minute) (T0 + 2 * Minute) [] [] [].

End samples.

(** * Properties *)

Import time model effects database statuschangetimeout updater app props examples.
Import main listing laws samples.

(** ** The oldest claim: [checkOldest] *)

Lemma oldestLoop_settled (s : Time) (tasks : list AsyncTask) (taskID : string) :
  s ≠ 0 →
  forallb (fun task => match StartDate task with
                       | Some x => s <=? x
                       | None => false
                       end) tasks = true →
  oldestLoop (Some s) true tasks taskID = Some true.
Proof.
  intros Hs. induction tasks as [|task rest IH]; simpl; [reflexivity|].
  intros H. apply andb_prop in H as [Hx Hrest].
  destruct (StartDate task) as [x|] eqn:Hst; [|discriminate].
  unfold IsZero, Before.
  destruct (Z.eqb_spec s 0) as [|_]; [contradiction|].
  apply Z.leb_le in Hx.
  destruct (Z.ltb_spec x s) as [Hlt|_]; [lia|].
  apply IH, Hrest.
Qed.

Lemma later_than_head (t s : Time) (task : AsyncTask) (rest : list AsyncTask) :
  StartDate task = Some s →
  forallb (start_le task) rest = true →
  forallb (started_before t) rest = true →
  forallb (fun u => match StartDate u with
                    | Some x => s <=? x
                    | None => false
                    end) rest = true.
Proof.
  intros Hst. induction rest as [|u rest IH]; simpl; [reflexivity|].
  intros Hle Hbefore.
  apply andb_prop in Hle as [Hu Hle].
  apply andb_prop in Hbefore as [Hb Hbefore].
  rewrite (IH Hle Hbefore), andb_true_r.
  unfold start_le in Hu. rewrite Hst in Hu.
  unfold started_before in Hb.
  destruct (StartDate u); [assumption|discriminate].
Qed.

Lemma oldestLoop_head (t : Time) (tasks : list AsyncTask) (taskID : string) :
  ascending tasks = true →
  forallb (started_before t) tasks = true →
  oldestLoop (Some t) true tasks taskID =
  Some (match tasks with
        | [] => true
        | task :: _ => String.eqb (ID task) taskID
        end).
Proof.
  destruct tasks as [|task rest]; simpl; [reflexivity|].
  intros Hasc Hbefore.
  apply andb_prop in Hasc as [Hle _].
  apply andb_prop in Hbefore as [Hhd Hrest].
  unfold started_before in Hhd.
  destruct (StartDate task) as [s|] eqn:Hst; [|discriminate].
  apply andb_prop in Hhd as [Hnz Hlt].
  assert (Hcond : (if IsZero t then Some true else Some (Before s t)) = Some true).
  { rewrite Hlt. destruct (IsZero t); reflexivity. }
  rewrite Hcond.
  destruct (String.eqb (ID task) taskID); [|reflexivity].
  apply oldestLoop_settled.
  - unfold IsZero in Hnz. destruct (Z.eqb_spec s 0); [discriminate|assumption].
  - eapply later_than_head; eassumption.
Qed.




(** ** The comparison status of the status-change-timeout processor *)

Lemma latestStatus_spec (statuses : list AsyncTaskStatus) (ts : Time) (st : string) :
  let r := latestStatus ts st statuses in
  ts ≤ fst r
  ∧ Forall (fun s => CreatedDate s ≤ fst r) statuses
  ∧ (r = (ts, st)
     ∨ ∃ s, s ∈ statuses ∧ r = (CreatedDate s, Status s)).
Proof.
  revert ts st. induction statuses as [|status rest IH]; intros ts st; simpl.
  - split; [lia|]. split; [constructor|]. left. reflexivity.
  - unfold After. destruct (Z.ltb_spec ts (CreatedDate status)) as [Hlt|Hge].
    + destruct (IH (CreatedDate status) (Status status)) as (Hle & Hall & Hfrom).
      split; [lia|]. split; [constructor; assumption|].
      right. destruct Hfrom as [->|(s & Hin & ->)].
      * exists status. split; [left|reflexivity].
      * exists s. split; [right; assumption|reflexivity].
    + destruct (IH ts st) as (Hle & Hall & Hfrom).
      split; [assumption|]. split; [constructor; [lia|assumption]|].
      destruct Hfrom as [->|(s & Hin & ->)]; [left; reflexivity|].
      right. exists s. split; [right; assumption|reflexivity].
Qed.

(** C5: a task without statuses is compared by its start date and the
    empty status; otherwise the comparison timestamp and status are
    those of one of the task's statuses, and no status of the task has
    a later created date.  Created dates are assigned by the store and
    lie after the zero instant. *)
Theorem C5_comparison (fullTask : AsyncTask) :
  Forall (fun s => 0 < CreatedDate s) (Statuses fullTask) →
  match Statuses fullTask with
  | [] =>
      comparison fullTask = (fun d => (d, "")) <$> StartDate fullTask
  | _ :: _ =>
      ∃ s, s ∈ Statuses fullTask
           ∧ comparison fullTask = Some (CreatedDate s, Status s)
           ∧ Forall (fun s' => CreatedDate s' ≤ CreatedDate s) (Statuses fullTask)
  end.
Proof.
  intros Hpos. unfold comparison.
  destruct (Statuses fullTask) as [|s0 rest] eqn:Hst.
  - simpl. destruct (StartDate fullTask); reflexivity.
  - replace (Z.of_nat (length (s0 :: rest)) =? 0) with false
      by (symmetry; apply Z.eqb_neq; simpl; lia).
    destruct (latestStatus_spec (s0 :: rest) 0 "") as (_ & Hall & Hfrom).
    destruct Hfrom as [Hsame|(s & Hin & Heq)].
    + exfalso. rewrite Hsame in Hall. simpl in Hall.
      inversion Hall; subst. inversion Hpos; subst. lia.
    + exists s. split; [assumption|]. split; [congruence|].
      rewrite Heq in Hall. exact Hall.
Qed.

Lemma C5_comparison_witness :
  ∃ s, s ∈ Statuses three_statuses
       ∧ comparison three_statuses = Some (CreatedDate s, Status s)
       ∧ Forall (fun s' => CreatedDate s' ≤ CreatedDate s) (Statuses three_statuses).
Proof.
  apply (C5_comparison three_statuses).
  repeat constructor.
Defined.

(** ** The store when it does not fail

    In a calm world every store call succeeds; logging and committing
    leave a calm world calm. *)

Lemma calm_logs ctx w entries : calm ctx w → calm ctx (logs w entries).
Proof. destruct ctx; intros [Hd Hf]; split; assumption. Qed.

Lemma calm_with_rows ctx w rs : calm ctx w → calm ctx (with_rows w rs).
Proof. destruct ctx; intros [Hd Hf]; split; assumption. Qed.

Lemma calm_Background w : faults w = [] → calm Background w.
Proof. intros Hf. split; [reflexivity|assumption]. Qed.

Lemma logf_logs lvl msg w : logf lvl msg w = (Ok tt, logs w [(lvl, msg)]).
Proof. reflexivity. Qed.

Lemma logs_logs w e1 e2 : logs (logs w e1) e2 = logs w (e1 ++ e2).
Proof. unfold logs; simpl. rewrite <- app_assoc. reflexivity. Qed.

Lemma bind_Ok {A B} (c : M A) (k : A → M B) w a w' :
  c w = (Ok a, w') → bind c k w = k a w'.
Proof. intros H. unfold bind. rewrite H. reflexivity. Qed.

Lemma catch_Ok {A} (c : M A) w a w' :
  c w = (Ok a, w') → catch c w = (Ok (inl a), w').
Proof. intros H. unfold catch. rewrite H. reflexivity. Qed.

Lemma catch_Err {A} (c : M A) w e w' :
  c w = (Err e, w') → catch c w = (Ok (inr e), w').
Proof. intros H. unfold catch. rewrite H. reflexivity. Qed.

Lemma orDie_Ok {A} msg (c : M A) w a w' :
  c w = (Ok a, w') → orDie msg c w = (Ok a, w').
Proof.
  intros H. unfold orDie. rewrite (bind_Ok _ _ _ _ _ (catch_Ok _ _ _ _ H)).
  reflexivity.
Qed.

Lemma store_call_calm ctx w : calm ctx w → store_call ctx w = (Ok tt, w).
Proof. intros [Hd Hf]. unfold store_call. rewrite Hd, Hf. reflexivity. Qed.

Lemma BeginTx_calm ctx w :
  calm ctx w → BeginTx ctx w = (Ok (mkTx ctx (rows w)), w).
Proof.
  intros H. unfold BeginTx. rewrite (bind_Ok _ _ _ _ _ (store_call_calm _ _ H)).
  reflexivity.
Qed.

Lemma Commit_calm tx w :
  calm (tx_ctx tx) w → Commit tx w = (Ok tt, with_rows w (tx_rows tx)).
Proof.
  intros H. unfold Commit. rewrite (bind_Ok _ _ _ _ _ (store_call_calm _ _ H)).
  reflexivity.
Qed.

Lemma GetTask_calm ctx tx id children w :
  calm ctx w →
  ∃ t, GetTask ctx tx id children w = (Ok t, w)
       ∧ match find_task id (tx_rows tx) with
         | None => t = zeroTask
         | Some row =>
             ID t = ID row ∧ StartDate t = StartDate row ∧ EndDate t = EndDate row
             ∧ (children = true →
                Statuses t = Statuses row ∧ Behaviors t = Behaviors row)
         end.
Proof.
  intros H. unfold GetTask. rewrite (bind_Ok _ _ _ _ _ (store_call_calm _ _ H)).
  eexists. split; [reflexivity|].
  destruct (find_task id (tx_rows tx)); [|reflexivity].
  destruct children; simpl; repeat split; discriminate.
Qed.

Lemma GetTasksByFilter_calm ctx tx f clause w :
  calm ctx w →
  GetTasksByFilter ctx tx f clause w =
  (Ok (order_by clause (List.filter (matches f) (tx_rows tx))), w).
Proof.
  intros H. unfold GetTasksByFilter.
  rewrite (bind_Ok _ _ _ _ _ (store_call_calm _ _ H)). reflexivity.
Qed.

Lemma InsertTaskStatus_calm ctx tx status id w :
  calm ctx w → find_task id (tx_rows tx) ≠ None →
  InsertTaskStatus ctx tx status id w =
  (Ok (mkTx (tx_ctx tx)
         (update_task id (add_status (stamp (db_now w) status)) (tx_rows tx))), w).
Proof.
  intros H Hfind. unfold InsertTaskStatus.
  rewrite (bind_Ok _ _ _ _ _ (store_call_calm _ _ H)).
  unfold DBNow, bind. destruct (find_task id (tx_rows tx)); [reflexivity|congruence].
Qed.

Lemma CompleteTask_calm ctx tx id w :
  calm ctx w →
  CompleteTask ctx tx id w =
  (Ok (mkTx (tx_ctx tx) (update_task id (set_end (db_now w)) (tx_rows tx))), w).
Proof.
  intros H. unfold CompleteTask.
  rewrite (bind_Ok _ _ _ _ _ (store_call_calm _ _ H)). reflexivity.
Qed.

Lemma DeleteTask_calm ctx tx id w :
  calm ctx w →
  DeleteTask ctx tx id w = (Ok (mkTx (tx_ctx tx) (remove_task id (tx_rows tx))), w).
Proof.
  intros H. unfold DeleteTask.
  rewrite (bind_Ok _ _ _ _ _ (store_call_calm _ _ H)). reflexivity.
Qed.

Lemma logs_nil w : logs w [] = w.
Proof. destruct w. unfold logs; simpl. rewrite app_nil_r. reflexivity. Qed.

Lemma bind_ret {A B} (a : A) (k : A → M B) w : bind (ret a) k w = k a w.
Proof. reflexivity. Qed.

Lemma bind_logf {B} lvl msg (k : unit → M B) w :
  bind (logf lvl msg) k w = k tt (logs w [(lvl, msg)]).
Proof. reflexivity. Qed.

Lemma bind_Now {B} (k : Time → M B) w : bind Now k w = k (now w) w.
Proof. reflexivity. Qed.

Lemma bind_Done {B} ctx (k : bool → M B) w : bind (Done ctx) k w = k (done ctx w) w.
Proof. reflexivity. Qed.

Create HintDb calm.
#[export] Hint Resolve calm_logs calm_with_rows calm_Background : calm.

(** [bind_with E] runs the computation at the head of the goal with
    the equation [E : c w = (Ok a, w')]. *)
Ltac bind_with E :=
  match type of E with
  | ?c ?w = (Ok ?a, ?w') =>
      match goal with
      | |- context [bind c ?k w] => rewrite (bind_Ok c k w a w' E); cbv beta
      end
  end.

(** One store call of a calm world. *)
Ltac calm_call :=
  match goal with
  | |- context [bind (BeginTx ?c) _ ?w] =>
      let E := fresh in
      unshelve epose proof (BeginTx_calm c w _) as E;
      [solve [eauto 6 with calm] | bind_with E; clear E]
  | |- context [bind (orDie ?m (InsertTaskStatus ?c ?t ?s ?i)) _ ?w] =>
      let E := fresh in
      unshelve epose proof (orDie_Ok m _ _ _ _ (InsertTaskStatus_calm c t s i w _ _)) as E;
      [solve [eauto 6 with calm] | solve [eauto] | bind_with E; clear E]
  | |- context [bind (orDie ?m (CompleteTask ?c ?t ?i)) _ ?w] =>
      let E := fresh in
      unshelve epose proof (orDie_Ok m _ _ _ _ (CompleteTask_calm c t i w _)) as E;
      [solve [eauto 6 with calm] | bind_with E; clear E]
  | |- context [bind (orDie ?m (DeleteTask ?c ?t ?i)) _ ?w] =>
      let E := fresh in
      unshelve epose proof (orDie_Ok m _ _ _ _ (DeleteTask_calm c t i w _)) as E;
      [solve [eauto 6 with calm] | bind_with E; clear E]
  | |- context [bind (GetTasksByFilter ?c ?t ?f ?o) _ ?w] =>
      let E := fresh in
      unshelve epose proof (GetTasksByFilter_calm c t f o w _) as E;
      [solve [eauto 6 with calm] | bind_with E; clear E]
  | |- context [bind (CompleteTask ?c ?t ?i) _ ?w] =>
      let E := fresh in
      unshelve epose proof (CompleteTask_calm c t i w _) as E;
      [solve [eauto 6 with calm] | bind_with E; clear E]
  | |- context [bind (DeleteTask ?c ?t ?i) _ ?w] =>
      let E := fresh in
      unshelve epose proof (DeleteTask_calm c t i w _) as E;
      [solve [eauto 6 with calm] | bind_with E; clear E]
  | |- context [bind (catch (Commit ?t)) _ ?w] =>
      let E := fresh in
      unshelve epose proof (catch_Ok _ _ _ _ (Commit_calm t w _)) as E;
      [solve [simpl; eauto 6 with calm] | bind_with E; clear E]
  | |- context [bind (Commit ?t) _ ?w] =>
      let E := fresh in
      unshelve epose proof (Commit_calm t w _) as E;
      [solve [simpl; eauto 6 with calm] | bind_with E; clear E]
  end.

Ltac calm_run :=
  repeat first
    [ rewrite bind_ret | rewrite bind_logf | rewrite bind_Now
    | rewrite bind_Done | calm_call ];
  rewrite ?logs_logs.

Lemma fire_calm ctx ID taskData tx w :
  calm ctx w → find_task ID (tx_rows tx) ≠ None →
  ∃ entries,
    fire ctx ID taskData tx w =
    (Ok (mkTx (tx_ctx tx) (ruleEffect (db_now w) taskData ID (tx_rows tx))),
     logs w entries).
Proof.
  intros Hcalm Hfind. unfold fire, ruleEffect.
  calm_run. unfold stamp; simpl.
  destruct (Complete taskData), (Delete taskData); cbv beta iota;
    calm_run; eexists; reflexivity.
Qed.

(** ** [checkOldest] on the list its query returns *)

Lemma start_le_total a b : start_le a b = true ∨ start_le b a = true.
Proof.
  unfold start_le. destruct (StartDate a) as [x|], (StartDate b) as [y|]; auto.
  destruct (Z.leb_spec x y); [left; reflexivity|right; apply Z.leb_le; lia].
Qed.

Lemma start_le_trans a b c :
  start_le a b = true → start_le b c = true → start_le a c = true.
Proof.
  unfold start_le.
  destruct (StartDate a) as [x|], (StartDate b) as [y|], (StartDate c) as [z|];
    try discriminate; try reflexivity.
  intros H1 H2. apply Z.leb_le in H1, H2. apply Z.leb_le. lia.
Qed.

Lemma forallb_insert_sorted (p : AsyncTask → bool) t l :
  p t = true → forallb p l = true → forallb p (insert_sorted start_le t l) = true.
Proof.
  intros Ht. induction l as [|u l IH]; simpl; [rewrite Ht; reflexivity|].
  intros H. apply andb_prop in H as [Hu Hl].
  destruct (start_le u t); simpl; rewrite Hu; [apply IH, Hl|].
  rewrite Ht, Hl. reflexivity.
Qed.

Lemma ascending_insert_sorted t l :
  ascending l = true → ascending (insert_sorted start_le t l) = true.
Proof.
  induction l as [|u l IH]; simpl; [reflexivity|].
  intros H. apply andb_prop in H as [Hu Hl].
  destruct (start_le u t) eqn:Hle; simpl.
  - rewrite (IH Hl), andb_true_r. apply forallb_insert_sorted; assumption.
  - rewrite Hu, Hl, !andb_true_r.
    destruct (start_le_total u t) as [H|H]; [congruence|].
    rewrite H. simpl.
    clear -H Hu. induction l as [|v l IH]; simpl in *; [reflexivity|].
    apply andb_prop in Hu as [Hv Hl]. rewrite (IH Hl), andb_true_r.
    eapply start_le_trans; eassumption.
Qed.

(** The rows come back from the query in ascending order of start
    date. *)
Lemma order_by_start_date_ascending l :
  ascending (order_by "start_date ASC" l) = true.
Proof.
  change (order_by "start_date ASC" l) with (sort_by start_le l).
  unfold sort_by. rewrite <- fold_left_rev_right.
  induction (rev l) as [|t l' IH]; simpl; [reflexivity|].
  apply ascending_insert_sorted, IH.
Qed.

Section Check.
Variable AddDate : Time → Z → Z → Z → Time.

(** In a calm world [checkOldest] is its loop, run on the rows its
    query returns from the instant of the process clock. *)
Lemma checkOldest_calm ctx behaviorType taskID w :
  calm ctx w →
  checkOldest AddDate ctx behaviorType taskID w =
  (match oldestLoop (Some (now w)) true
           (order_by "start_date ASC"
              (List.filter (matches (claimFilter AddDate behaviorType (now w)))
                 (rows w))) taskID with
   | Some true => Ok tt
   | Some false => Err "The provided ID is not the oldest task of its type"
   | None => Panic
   end, w).
Proof.
  intros Hcalm. unfold checkOldest. calm_run. cbn [tx_rows].
  destruct (oldestLoop _ _ _ _) as [[]|]; reflexivity.
Qed.

(** It returns a nil error exactly when the loop ends with [isOldest]
    set. *)
Lemma checkOldest_wins ctx behaviorType taskID w :
  calm ctx w →
  fst (checkOldest AddDate ctx behaviorType taskID w) = Ok tt
  ↔ wins (now w)
      (order_by "start_date ASC"
         (List.filter (matches (claimFilter AddDate behaviorType (now w))) (rows w)))
      taskID.
Proof.
  intros Hcalm. rewrite (checkOldest_calm ctx behaviorType taskID w Hcalm).
  unfold wins. destruct (oldestLoop _ _ _ _) as [[]|]; simpl; split;
    congruence || reflexivity || discriminate.
Qed.

End Check.

(** ** The status-change-timeout processor *)

Section Rules.
Variable Decode : value → StatusChangeTimeoutData + string.
Variable ParseDuration : string → Duration + string.

Lemma rulesLoop_rule ctx ID cts cst datum rest tx w taskData timeout :
  Decode datum = inl taskData →
  ParseDuration (Timeout taskData) = inl timeout →
  calm ctx w →
  find_task ID (tx_rows tx) ≠ None →
  ∃ entries,
    rulesLoop Decode ParseDuration ctx ID cts cst (datum :: rest) tx w =
    rulesLoop Decode ParseDuration ctx ID cts cst rest
      (if ready cts cst timeout taskData (now w)
       then mkTx (tx_ctx tx) (ruleEffect (db_now w) taskData ID (tx_rows tx))
       else tx)
      (logs w entries).
Proof.
  intros Hdec Hparse Hcalm Hfind. simpl. rewrite Hdec, Hparse.
  rewrite bind_Now.
  destruct (ready cts cst timeout taskData (now w)).
  - destruct (fire_calm ctx ID taskData tx w Hcalm Hfind) as [entries Hfire].
    exists entries. bind_with Hfire. reflexivity.
  - calm_run. eexists. reflexivity.
Qed.

Lemma processSingleTask_calm ctx ID w row cts cst :
  calm ctx w →
  find_task ID (rows w) = Some row →
  comparison row = Some (cts, cst) →
  processSingleTask Decode ParseDuration ctx ID w =
  bind (behaviorsLoop Decode ParseDuration ctx ID cts cst (Behaviors row)
          (mkTx ctx (rows w)))
       (fun tx => r <- catch (Commit tx) ;;
                  match r with
                  | inl _ => ret tt
                  | inr e => logf LError (Wrap e "failed committing transaction")
                  end)
       (logs w [(LInfo, "Most recent timestamp for task %s: %s")]).
Proof.
  intros Hcalm Hfind Hcmp. unfold processSingleTask.
  rewrite bind_Done. destruct Hcalm as [Hd Hf]. rewrite Hd.
  assert (Hcalm : calm ctx w) by (split; assumption).
  calm_run.
  destruct (GetTask_calm ctx (mkTx ctx (rows w)) ID true w Hcalm) as (t & Hget & Ht).
  simpl in Ht. rewrite Hfind in Ht. destruct Ht as (_ & Hsd & _ & Hch).
  destruct (Hch eq_refl) as [Hst Hbs].
  pose proof (orDie_Ok "failed getting task" _ _ _ _ Hget) as E.
  bind_with E.
  assert (Hc : comparison t = Some (cts, cst)).
  { rewrite <- Hcmp. unfold comparison. rewrite Hst, Hsd. reflexivity. }
  rewrite Hc, Hbs. rewrite bind_logf. reflexivity.
Qed.

Lemma bind_ret_r {A} (c : M A) w : bind c ret w = c w.
Proof. unfold bind. destruct (c w) as [[a|e|] w']; reflexivity. Qed.

Lemma behaviorsLoop_timeout ctx ID cts cst data tx w :
  behaviorsLoop Decode ParseDuration ctx ID cts cst [timeoutBehavior data] tx w =
  rulesLoop Decode ParseDuration ctx ID cts cst data tx w.
Proof.
  simpl. rewrite lookup_singleton_eq. apply bind_ret_r.
Qed.

Lemma find_task_here id t rest : ID t = id → find_task id (t :: rest) = Some t.
Proof.
  intros <-. unfold find_task; simpl. unfold has_id. rewrite String.eqb_refl.
  reflexivity.
Qed.

Lemma update_task_here id f t rest :
  ID t = id → update_task id f (t :: rest) = f t :: rest.
Proof.
  intros <-. simpl. unfold has_id. rewrite String.eqb_refl. reflexivity.
Qed.

Lemma ProcessLoop_one ctx task w :
  done ctx w = false →
  ProcessLoop Decode ParseDuration ctx [task] w =
  bind (catch (processSingleTask Decode ParseDuration ctx (ID task)))
    (fun r => match r with
              | inl _ => ret tt
              | inr e => logf LError (Wrap e "failed processing a task")
              end) w.
Proof.
  intros Hd. simpl. rewrite bind_Done, Hd.
  unfold bind at 1 3.
  destruct (catch _ w) as [[[a|e]|e|] w']; try reflexivity.
Qed.

Lemma with_rows_same w : with_rows w (rows w) = w.
Proof. destruct w. reflexivity. Qed.

Lemma with_rows_logs w rs e : with_rows (logs w e) rs = logs (with_rows w rs) e.
Proof. reflexivity. Qed.

(** One task of the scenario, when the store holds only that task. *)
Lemma scenario_single ctx id ty T datum w :
  Decode datum = inl scenarioRule →
  ParseDuration "1m" = inl Minute →
  calm ctx w →
  rows w = [scenarioTask id ty T datum None []] →
  ∃ entries,
    processSingleTask Decode ParseDuration ctx id w =
    (Ok tt,
     logs (with_rows w
             (if Before (Add T Minute) (now w)
              then [scenarioTask id ty T datum (Some (db_now w))
                      [mkStatus "done" "" (db_now w)]]
              else rows w)) entries).
Proof.
  intros Hdec Hparse Hcalm Hrows.
  assert (Hfind : find_task id (rows w) = Some (scenarioTask id ty T datum None []))
    by (rewrite Hrows; apply find_task_here; reflexivity).
  rewrite (processSingleTask_calm ctx id w _ T "" Hcalm Hfind eq_refl).
  change (Behaviors (scenarioTask id ty T datum None [])) with [timeoutBehavior [datum]].
  set (w1 := logs w _).
  assert (Hcalm1 : calm ctx w1) by (subst w1; eauto with calm).
  assert (Hfind1 : find_task id (tx_rows (mkTx ctx (rows w))) ≠ None)
    by (simpl; rewrite Hfind; discriminate).
  destruct (rulesLoop_rule ctx id T "" datum [] (mkTx ctx (rows w)) w1
              scenarioRule Minute Hdec Hparse Hcalm1 Hfind1) as [entries Hrule].
  assert (Hloop : behaviorsLoop Decode ParseDuration ctx id T "" [timeoutBehavior [datum]]
            (mkTx ctx (rows w)) w1 =
          (Ok (if Before (Add T Minute) (now w)
               then mkTx ctx (ruleEffect (db_now w) scenarioRule id (rows w))
               else mkTx ctx (rows w)), logs w1 entries)).
  { rewrite behaviorsLoop_timeout, Hrule. simpl.
    unfold ready. simpl. rewrite andb_true_r. reflexivity. }
  bind_with Hloop. subst w1. rewrite logs_logs.
  destruct (Before (Add T Minute) (now w)) eqn:Hready.
  - calm_run. rewrite with_rows_logs. eexists. f_equal. f_equal. f_equal.
    cbn [tx_rows]. rewrite Hrows. unfold ruleEffect, scenarioRule.
    cbn [Complete Delete EndStatus].
    rewrite !update_task_here by reflexivity. reflexivity.
  - calm_run. rewrite with_rows_logs. eexists. reflexivity.
Qed.

(** The task of the scenario, alone in the store. *)
Lemma scenario_run ctx id ty T datum tick w :
  Decode datum = inl scenarioRule →
  ParseDuration "1m" = inl Minute →
  calm ctx w →
  rows w = [scenarioTask id ty T datum None []] →
  ∃ entries,
    Processor Decode ParseDuration ctx tick w =
    (Ok tt,
     logs (with_rows w
             (if Before (Add T Minute) (now w)
              then [scenarioTask id ty T datum (Some (db_now w))
                      [mkStatus "done" "" (db_now w)]]
              else rows w)) entries).
Proof.
  intros Hdec Hparse Hcalm Hrows. unfold Processor.
  calm_run. rewrite Hrows.
  change (order_by _ _) with [scenarioTask id ty T datum None []].
  rewrite ProcessLoop_one by apply Hcalm.
  set (w1 := logs w _).
  assert (Hcalm1 : calm ctx w1) by (subst w1; eauto with calm).
  change (ID (scenarioTask id ty T datum None [])) with id.
  destruct (scenario_single ctx id ty T datum w1 Hdec Hparse Hcalm1 Hrows)
    as [entries Hsingle].
  rewrite (bind_Ok _ _ _ _ _ (catch_Ok _ _ _ _ Hsingle)).
  subst w1. cbn [now db_now rows logs]. rewrite Hrows.
  rewrite with_rows_logs, logs_logs. eexists. reflexivity.
Qed.

End Rules.


(** *** Running the processor twice *)

Section Idempotence.
Variable Decode : value → StatusChangeTimeoutData + string.
Variable ParseDuration : string → Duration + string.

(** The task of the scenario once "done" was appended: the rule is no
    longer ready, whatever the clocks say. *)
Lemma scenario_done_single ctx id ty T datum d e w :
  Decode datum = inl scenarioRule →
  ParseDuration "1m" = inl Minute →
  calm ctx w →
  rows w = [scenarioTask id ty T datum e [mkStatus "done" "" d]] →
  0 < d →
  ∃ entries,
    processSingleTask Decode ParseDuration ctx id w = (Ok tt, logs w entries).
Proof.
  intros Hdec Hparse Hcalm Hrows Hd.
  assert (Hfind : find_task id (rows w)
                  = Some (scenarioTask id ty T datum e [mkStatus "done" "" d]))
    by (rewrite Hrows; apply find_task_here; reflexivity).
  assert (Hcmp : comparison (scenarioTask id ty T datum e [mkStatus "done" "" d])
                 = Some (d, "done")).
  { unfold comparison. simpl. unfold After.
    destruct (Z.ltb_spec 0 d); [reflexivity|lia]. }
  rewrite (processSingleTask_calm Decode ParseDuration ctx id w _ d "done"
             Hcalm Hfind Hcmp).
  change (Behaviors _) with [timeoutBehavior [datum]].
  set (w1 := logs w _).
  assert (Hcalm1 : calm ctx w1) by (subst w1; eauto with calm).
  assert (Hfind1 : find_task id (tx_rows (mkTx ctx (rows w))) ≠ None)
    by (simpl; rewrite Hfind; discriminate).
  destruct (rulesLoop_rule Decode ParseDuration ctx id d "done" datum []
              (mkTx ctx (rows w)) w1 scenarioRule Minute Hdec Hparse Hcalm1 Hfind1)
    as [entries Hrule].
  assert (Hloop : behaviorsLoop Decode ParseDuration ctx id d "done"
            [timeoutBehavior [datum]] (mkTx ctx (rows w)) w1 =
          (Ok (mkTx ctx (rows w)), logs w1 entries)).
  { rewrite behaviorsLoop_timeout, Hrule. unfold ready. simpl.
    rewrite andb_false_r. reflexivity. }
  bind_with Hloop. subst w1. rewrite logs_logs.
  calm_run. rewrite with_rows_logs, with_rows_same. eexists. reflexivity.
Qed.

Lemma scenario_done_run ctx id ty T datum d e tick w :
  Decode datum = inl scenarioRule →
  ParseDuration "1m" = inl Minute →
  calm ctx w →
  rows w = [scenarioTask id ty T datum e [mkStatus "done" "" d]] →
  0 < d →
  ∃ entries,
    Processor Decode ParseDuration ctx tick w = (Ok tt, logs w entries).
Proof.
  intros Hdec Hparse Hcalm Hrows Hd. unfold Processor.
  calm_run. cbn [tx_rows]. rewrite Hrows.
  change (List.filter _ _) with [scenarioTask id ty T datum e [mkStatus "done" "" d]].
  replace (order_by _ _) with [scenarioTask id ty T datum e [mkStatus "done" "" d]]
    by (destruct e; reflexivity).
  rewrite ProcessLoop_one by apply Hcalm.
  set (w1 := logs w _).
  assert (Hcalm1 : calm ctx w1) by (subst w1; eauto with calm).
  change (ID (scenarioTask id ty T datum e [mkStatus "done" "" d])) with id.
  destruct (scenario_done_single ctx id ty T datum d e w1 Hdec Hparse Hcalm1 Hrows Hd)
    as [entries Hsingle].
  rewrite (bind_Ok _ _ _ _ _ (catch_Ok _ _ _ _ Hsingle)).
  subst w1. rewrite logs_logs. eexists. reflexivity.
Qed.

(** C6: in the scenario, once the rule has fired, a second run of the
    processor changes nothing: the first run appends "done" once and
    completes the task; on the store it leaves, the comparison status is
    "done", which is not the rule's start status, so a second run,
    at once or later, leaves the rows as they are.  The store's clock
    is past the zero instant. *)
Theorem C6_second_run_changes_nothing ctx id ty T datum tick w :
  Decode datum = inl scenarioRule →
  ParseDuration "1m" = inl Minute →
  calm ctx w →
  rows w = [scenarioTask id ty T datum None []] →
  Before (Add T Minute) (now w) = true →
  0 < db_now w →
  ∃ w1,
    Processor Decode ParseDuration ctx tick w = (Ok tt, w1)
    ∧ rows w1 = [scenarioTask id ty T datum (Some (db_now w))
                   [mkStatus "done" "" (db_now w)]]
    ∧ calm ctx w1
    ∧ ∀ tick' w1',
        calm ctx w1' → rows w1' = rows w1 →
        ∃ w2,
          Processor Decode ParseDuration ctx tick' w1' = (Ok tt, w2)
          ∧ rows w2 = rows w1.
Proof.
  intros Hdec Hparse Hcalm Hrows Hready Hd.
  destruct (scenario_run Decode ParseDuration ctx id ty T datum tick w
              Hdec Hparse Hcalm Hrows) as [entries Hrun].
  rewrite Hready in Hrun. eexists. split; [exact Hrun|].
  split; [reflexivity|]. split; [eauto with calm|].
  intros tick' w1' Hcalm' Hrows'. cbn [rows logs with_rows] in Hrows'.
  destruct (scenario_done_run ctx id ty T datum (db_now w) (Some (db_now w))
              tick' w1' Hdec Hparse Hcalm' Hrows' Hd) as [entries' Hrun'].
  eexists. split; [exact Hrun'|]. exact Hrows'.
Qed.

End Idempotence.

Lemma C6_second_run_changes_nothing_witness :
  ∃ w1,
    Processor instances.Decode instances.ParseDuration Background T0
      (scenario_world (T0 + 2 * Minute)) = (Ok tt, w1)
    ∧ rows w1 = [scenarioTask timed_task "analysis" T0 rule_done
                   (Some (T0 + 2 * Minute))
                   [mkStatus "done" "" (T0 + 2 * Minute)]]
    ∧ calm Background w1
    ∧ ∀ tick' w1',
        calm Background w1' → rows w1' = rows w1 →
        ∃ w2,
          Processor instances.Decode instances.ParseDuration Background tick' w1'
          = (Ok tt, w2)
          ∧ rows w2 = rows w1.
Proof.
  apply (C6_second_run_changes_nothing instances.Decode instances.ParseDuration
           Background timed_task "analysis" T0 rule_done T0
           (scenario_world (T0 + 2 * Minute))).
  - vm_compute. reflexivity.
  - vm_compute. reflexivity.
  - split; reflexivity.
  - reflexivity.
  - reflexivity.
  - reflexivity.
Defined.

(** *** Rules that cannot be used *)

Lemma same_store_refl w : same_store w w.
Proof. repeat split. Qed.

Lemma related_ret {A} (a : A) : related (ret a) (ret a).
Proof. intros w1 w2 H. split; [reflexivity|exact H]. Qed.

Lemma related_fail {A} e : related (@fail A e) (fail e).
Proof. intros w1 w2 H. split; [reflexivity|exact H]. Qed.

Lemma related_logf lvl msg : related (logf lvl msg) (logf lvl msg).
Proof. intros w1 w2 H. split; [reflexivity|exact H]. Qed.

Lemma related_bind {A B} (c1 c2 : M A) (k1 k2 : A → M B) :
  related c1 c2 → (∀ a, related (k1 a) (k2 a)) →
  related (bind c1 k1) (bind c2 k2).
Proof.
  intros Hc Hk w1 w2 H. unfold bind. specialize (Hc w1 w2 H).
  destruct (c1 w1) as [r1 w1'], (c2 w2) as [r2 w2']. simpl in Hc.
  destruct Hc as [-> Hs]. destruct r2 as [a|e|].
  - apply Hk, Hs.
  - split; [reflexivity|exact Hs].
  - split; [reflexivity|exact Hs].
Qed.

Lemma related_catch {A} (c1 c2 : M A) :
  related c1 c2 → related (catch c1) (catch c2).
Proof.
  intros Hc w1 w2 H. unfold catch. specialize (Hc w1 w2 H).
  destruct (c1 w1) as [r1 w1'], (c2 w2) as [r2 w2']. simpl in Hc.
  destruct Hc as [-> Hs]. destruct r2; (split; [reflexivity|exact Hs]).
Qed.

Lemma related_log_l {A} lvl msg (c1 c2 : M A) :
  related c1 c2 → related (bind (logf lvl msg) (fun _ => c1)) c2.
Proof. intros Hc w1 w2 H. rewrite bind_logf. apply Hc, H. Qed.

Lemma related_Now : related Now Now.
Proof.
  intros w1 w2 H. split; [|exact H]. destruct H as (_ & _ & Hn & _).
  unfold Now; simpl. rewrite Hn. reflexivity.
Qed.

Lemma related_DBNow : related DBNow DBNow.
Proof.
  intros w1 w2 H. split; [|exact H]. destruct H as (_ & Hd & _).
  unfold DBNow; simpl. rewrite Hd. reflexivity.
Qed.

Lemma related_store_call ctx : related (store_call ctx) (store_call ctx).
Proof.
  intros [r1 d1 n1 f1 u1 l1] [r2 d2 n2 f2 u2 l2] (Hr & Hd & Hn & Hf & Hu).
  simpl in *. subst. unfold store_call. destruct ctx as [|dl]; simpl.
  - destruct f2 as [|[] f2]; simpl; repeat split.
  - destruct (dl <=? n2); simpl; [repeat split|].
    destruct f2 as [|[] f2]; simpl; repeat split.
Qed.

Lemma related_orDie {A} msg (c1 c2 : M A) :
  related c1 c2 → related (orDie msg c1) (orDie msg c2).
Proof.
  intros Hc. unfold orDie. apply related_bind; [apply related_catch, Hc|].
  intros [a|e]; [apply related_ret|].
  apply related_bind; [apply related_logf|]. intros _. apply related_fail.
Qed.

Create HintDb related.
#[export] Hint Resolve related_ret related_fail related_logf related_Now
  related_DBNow related_store_call related_catch related_orDie : related.

Ltac related_steps :=
  repeat first
    [ apply related_bind; [|intros ?]
    | progress eauto with related
    | match goal with
      | |- related (match ?x with _ => _ end) (match ?x with _ => _ end) =>
          destruct x
      | |- related (if ?b then _ else _) (if ?b then _ else _) => destruct b
      end ].

Lemma related_InsertTaskStatus ctx tx status id :
  related (InsertTaskStatus ctx tx status id) (InsertTaskStatus ctx tx status id).
Proof. unfold InsertTaskStatus. related_steps. Qed.

Lemma related_CompleteTask ctx tx id :
  related (CompleteTask ctx tx id) (CompleteTask ctx tx id).
Proof. unfold CompleteTask. related_steps. Qed.

Lemma related_DeleteTask ctx tx id :
  related (DeleteTask ctx tx id) (DeleteTask ctx tx id).
Proof. unfold DeleteTask. related_steps. Qed.

#[export] Hint Resolve related_InsertTaskStatus related_CompleteTask
  related_DeleteTask : related.

Lemma related_fire ctx ID taskData tx :
  related (fire ctx ID taskData tx) (fire ctx ID taskData tx).
Proof. unfold fire. related_steps. Qed.

#[export] Hint Resolve related_fire : related.

Section Skipping.
Variable Decode : value → StatusChangeTimeoutData + string.
Variable ParseDuration : string → Duration + string.

Lemma rulesLoop_skips ctx ID cts cst data :
  ∀ tx,
    related (rulesLoop Decode ParseDuration ctx ID cts cst data tx)
            (rulesLoop Decode ParseDuration ctx ID cts cst
               (List.filter (usable Decode ParseDuration) data) tx).
Proof.
  induction data as [|datum rest IH]; intros tx; simpl.
  - apply related_ret.
  - unfold usable at 1.
    destruct (Decode datum) as [taskData|e] eqn:Hdec.
    + destruct (ParseDuration (Timeout taskData)) as [timeout|e] eqn:Hparse.
      * simpl. rewrite Hdec, Hparse. related_steps; apply IH.
      * apply related_log_l, IH.
    + apply related_log_l, IH.
Qed.

Lemma ProcessLoop_next ctx task rest w :
  done ctx w = false →
  ProcessLoop Decode ParseDuration ctx (task :: rest) w =
  match processSingleTask Decode ParseDuration ctx (ID task) w with
  | (Ok _, w') => ProcessLoop Decode ParseDuration ctx rest w'
  | (Err e, w') =>
      ProcessLoop Decode ParseDuration ctx rest
        (logs w' [(LError, Wrap e "failed processing a task")])
  | (Panic, w') => (Panic, w')
  end.
Proof.
  intros Hd. simpl. rewrite bind_Done, Hd. unfold bind at 1, catch.
  destruct (processSingleTask Decode ParseDuration ctx (ID task) w)
    as [[a|e|] w']; reflexivity.
Qed.


End Skipping.


(** ** The task handlers *)

(** C7: a task without a type, with more than one initial status, with
    an initial status whose status is empty, or with a behavior without
    a type is rejected, and the rejection is all that happens: the
    handler answers with an error and logs it, and the world is
    otherwise as it was, no call to the store having been made. *)
Theorem C7_create_rejects (r : Request AsyncTask) (rawtask : AsyncTask) (w : World) :
  Body r = Decoded rawtask →
  blank (TaskType rawtask) = true
  ∨ (1 < length (Statuses rawtask))%nat
  ∨ (∃ status, status ∈ Statuses rawtask ∧ blank (Status status) = true)
  ∨ (∃ behavior, behavior ∈ Behaviors rawtask
                 ∧ blank (BehaviorType behavior) = true) →
  ∃ msg,
    CreateTaskRequest r w =
    (Ok (mkResponse StatusInternalServerError (makeErrorJson msg) None),
     logs w [(LError, msg)]).
Proof.
  intros Hbody Hbad. unfold CreateTaskRequest, readBody. rewrite Hbody.
  destruct (blank (TaskType rawtask)) eqn:Htype; [eexists; reflexivity|].
  destruct (existsb _ (Behaviors rawtask)) eqn:Hbeh; [eexists; reflexivity|].
  destruct (1 <? Z.of_nat (length (Statuses rawtask))) eqn:Hmany;
    [eexists; reflexivity|].
  destruct (Statuses rawtask) as [|status rest] eqn:Hst.
  - exfalso. destruct Hbad as [H|[H|[(s & Hin & _)|(b & Hin & Hb)]]].
    + discriminate.
    + simpl in H. lia.
    + inversion Hin.
    + assert (existsb (fun behavior => blank (BehaviorType behavior))
                (Behaviors rawtask) = true)
        by (apply existsb_exists; exists b; split;
            [apply list_elem_of_In; assumption|assumption]).
      congruence.
  - destruct (blank (Status status)) eqn:Hblank; [eexists; reflexivity|].
    exfalso. apply Z.ltb_ge in Hmany. simpl in Hmany.
    destruct rest as [|s2 rest]; [|simpl in Hmany; lia].
    destruct Hbad as [H|[H|[(s & Hin & Hs)|(b & Hin & Hb)]]].
    + discriminate.
    + simpl in H. lia.
    + apply list_elem_of_singleton in Hin. subst s. congruence.
    + assert (existsb (fun behavior => blank (BehaviorType behavior))
                (Behaviors rawtask) = true)
        by (apply existsb_exists; exists b; split;
            [apply list_elem_of_In; assumption|assumption]).
      congruence.
Qed.

Lemma C7_create_rejects_witness :
  ∃ msg,
    CreateTaskRequest create_without_type one_task_world =
    (Ok (mkResponse StatusInternalServerError (makeErrorJson msg) None),
     logs one_task_world [(LError, msg)]).
Proof.
  apply (C7_create_rejects create_without_type _ one_task_world eq_refl).
  left. reflexivity.
Defined.

(** C8 does not hold of [CreateTaskRequest]: a task without a type, which
    is a validation error, is answered with the status of an internal
    failure, the very status a failing store is answered with, and not
    with that of a bad request, which the handlers use for a missing
    identifier only. *)
Theorem C8_validation_answered_as_internal_failure :
  (∃ content w',
     CreateTaskRequest create_without_type one_task_world =
     (Ok (mkResponse StatusInternalServerError content None), w'))
  ∧ (∃ content w',
       CreateTaskRequest create_analysis failing_world =
       (Ok (mkResponse StatusInternalServerError content None), w'))
  ∧ (∃ content w',
       AddStatusRequest (mkRequest ∅ ∅ Background (Decoded (mkStatus "x" "" 0)))
         one_task_world =
       (Ok (mkResponse StatusBadRequest content None), w'))
  ∧ StatusInternalServerError ≠ StatusBadRequest.
Proof.
  repeat split; try (do 2 eexists; vm_compute; reflexivity).
  discriminate.
Qed.

(** C10 does not hold of [AddStatusRequest]: a status whose status string
    is empty, sent for an existing task, is appended to the task and the
    request is answered as created.  Nor does it hold of the processor:
    a rule whose end status is empty appends an empty status. *)
Theorem C10_blank_status_is_appended :
  (∃ w',
     AddStatusRequest add_blank_status one_task_world =
     (Ok (mkResponse StatusCreated Nothing (Some (getByIdURL open_task_id))), w')
     ∧ (Statuses <$> find_task open_task_id (rows w'))
       = Some [mkStatus "queued" "" (T0 + Second); mkStatus "" "" (T0 + Minute)])
  ∧ (∃ w',
       Processor instances.Decode instances.ParseDuration Background T0
         blank_end_world = (Ok tt, w')
       ∧ (Statuses <$> find_task timed_task (rows w'))
         = Some [mkStatus "" "" (T0 + 2 * Minute)]).
Proof. split; eexists; split; vm_compute; reflexivity. Qed.

(** ** One attempt of the protocol *)

Lemma find_task_remove id rs : find_task id (remove_task id rs) = None.
Proof.
  unfold find_task, remove_task. induction rs as [|t rs IH]; simpl; [reflexivity|].
  destruct (has_id id t) eqn:H; simpl; [assumption|]. rewrite H. assumption.
Qed.

Lemma find_task_update id f rs :
  (∀ t, ID (f t) = ID t) →
  find_task id (update_task id f rs) = f <$> find_task id rs.
Proof.
  intros Hid. unfold find_task. induction rs as [|t rs IH]; simpl; [reflexivity|].
  destruct (has_id id t) eqn:H; simpl.
  - unfold has_id in *. rewrite Hid, H. reflexivity.
  - rewrite H. assumption.
Qed.

Lemma blank_false id : id ≠ "" → blank id = false.
Proof.
  intros H. unfold blank. destruct (String.eqb_spec id ""); [contradiction|reflexivity].
Qed.

Lemma deleteTask_calm ctx id w :
  calm ctx w →
  deleteTask ctx id w =
  (Ok tt, logs (with_rows w (remove_task id (rows w)))
            [(LInfo, "Deleting task %s")]).
Proof.
  intros Hcalm. unfold deleteTask. calm_run.
  rewrite Commit_calm by (simpl; eauto with calm). reflexivity.
Qed.

Lemma finishTask_calm ctx id w :
  calm ctx w →
  finishTask ctx id w =
  (Ok tt, logs (with_rows w (update_task id (set_end (db_now w)) (rows w)))
            [(LInfo, "Completing task %s")]).
Proof.
  intros Hcalm. unfold finishTask. calm_run.
  rewrite Commit_calm by (simpl; eauto with calm). reflexivity.
Qed.

Lemma not_in_progress_removed id w entries :
  ¬ in_progress id (logs (with_rows w (remove_task id (rows w))) entries).
Proof.
  intros (m & Hfind & _). simpl in Hfind. rewrite find_task_remove in Hfind.
  discriminate.
Qed.

Lemma not_in_progress_ended id d w entries :
  ¬ in_progress id (logs (with_rows w (update_task id (set_end d) (rows w))) entries).
Proof.
  intros (m & Hfind & Hend). simpl in Hfind.
  rewrite find_task_update in Hfind by reflexivity.
  destruct (find_task id (rows w)) as [m0|]; [|discriminate].
  injection Hfind as <-. discriminate.
Qed.

(** After an error of [checkAlone]: the error is logged and the marker
    deleted; no processor is involved. *)
Lemma outcome_lost ctx behaviorType processor tickerTime id e w :
  id ≠ "" → calm ctx w →
  outcome ctx behaviorType processor tickerTime id (Some e) w =
  (Ok tt,
   logs (with_rows w (remove_task id (rows w)))
     [(LError, Wrap e "We are not the oldest process for this behavior type");
      (LInfo, "Deleting task %s")]).
Proof.
  intros Hid Hcalm. unfold outcome. rewrite bind_logf, (blank_false id Hid).
  cbn [negb]. set (w' := logs w _).
  assert (Hcalm' : calm ctx w') by (subst w'; eauto with calm).
  rewrite (bind_Ok _ _ _ _ _ (catch_Ok _ _ _ _ (deleteTask_calm ctx id w' Hcalm'))).
  subst w'. cbn [rows logs]. rewrite with_rows_logs, logs_logs. reflexivity.
Qed.

(** After a nil error of [checkAlone]: the processor is run, and
    whatever it returns the marker is completed from the world it
    leaves, under the background context. *)
Lemma outcome_won ctx behaviorType processor tickerTime id w r w2 :
  id ≠ "" →
  processor ctx tickerTime
    (logs w [(LInfo, "Processing behavior type %s for time %s (task ID %s)")])
  = (r, w2) →
  faults w2 = [] →
  ∃ entries,
    outcome ctx behaviorType processor tickerTime id None w =
    (match r with Panic => Panic | _ => Ok tt end,
     logs (with_rows w2 (update_task id (set_end (db_now w2)) (rows w2))) entries).
Proof.
  intros Hid Hproc Hfaults. unfold outcome, defer.
  rewrite (blank_false id Hid). cbn [negb]. rewrite bind_logf.
  unfold bind at 1, catch. rewrite Hproc.
  assert (Hfin : ∀ entries,
    finishTaskLogError Background id (logs w2 entries) =
    (Ok tt, logs (with_rows w2 (update_task id (set_end (db_now w2)) (rows w2)))
              (entries ++ [(LInfo, "Completing task %s")]))).
  { intros entries. unfold finishTaskLogError.
    assert (Hcalm : calm Background (logs w2 entries))
      by (apply calm_Background; assumption).
    rewrite (bind_Ok _ _ _ _ _ (catch_Ok _ _ _ _ (finishTask_calm _ id _ Hcalm))).
    cbn [rows logs db_now]. rewrite with_rows_logs, logs_logs. reflexivity. }
  destruct r as [[]|e|].
  - rewrite bind_ret, logf_logs, Hfin. eexists. reflexivity.
  - rewrite bind_logf, logf_logs, logs_logs, Hfin. eexists. reflexivity.
  - pose proof (Hfin []) as Hfin0. rewrite logs_nil in Hfin0.
    rewrite Hfin0. eexists. reflexivity.
Qed.

Section Attempt.
Variable AddDate : Time → Z → Z → Z → Time.


End Attempt.



(** ** Two claims in the store *)

Lemma order_two_claims m1 m2 s1 s2 claims :
  StartDate m1 = Some s1 → StartDate m2 = Some s2 → s1 < s2 →
  claims = [m1; m2] ∨ claims = [m2; m1] →
  order_by "start_date ASC" claims = [m1; m2].
Proof.
  intros H1 H2 Hlt Hclaims.
  change (order_by "start_date ASC" claims) with (sort_by start_le claims).
  assert (Hle : start_le m1 m2 = true)
    by (unfold start_le; rewrite H1, H2; apply Z.leb_le; lia).
  assert (Hgt : start_le m2 m1 = false)
    by (unfold start_le; rewrite H1, H2; apply Z.leb_gt; lia).
  destruct Hclaims as [->| ->]; unfold sort_by; simpl.
  - rewrite Hle. reflexivity.
  - rewrite Hgt. reflexivity.
Qed.

Section TwoClaims.
Variable AddDate : Time → Z → Z → Z → Time.


End TwoClaims.


